(** * MQPushConsumer: a shallow embedding of lib/consumer/mq_push_consumer.js

    The generator methods of the consumer are embedded as programs of a
    small resumption monad: a program runs on the consumer's fields until
    it returns, throws, or reaches a [yield]; the environment answers the
    yielded call (or throws into the generator) and may let other tasks of
    the consumer run before the program is resumed.

    Conventions.
    - JS strings are [string]; a character stands for one code unit below
      256.
    - JS numbers that hold offsets, timestamps and ids are integers, in
      [Z], of a magnitude below 2^1024.  Comparisons and the subtraction of
      queue ids are the integers' own; [Number(x)] and the one addition of
      the module ([lastMsgOffset + 1]) round to the nearest double
      ([toNumber], [numberAdd]), which changes nothing below 2^53.
    - Objects that are shared by reference (the rows of the process-queue
      table) live in a heap and are named by their location. *)

From Stdlib Require Import ZArith String Ascii List Bool Lia.
From stdpp Require Import base decidable list strings pretty.
Import ListNotations.
Local Open Scope string_scope.
Local Open Scope list_scope.
Local Open Scope Z_scope.

Set Implicit Arguments.

(** ** Strings as the code uses them *)

(** [!!s] for a string: the empty string is the only falsy one. *)
Definition truthy (s : string) : bool :=
  match s with EmptyString => false | String _ _ => true end.

(** [!!n] for a number that is not NaN: zero is the only falsy one. *)
Definition truthyNumber (n : Z) : bool := negb (n =? 0).

(** The double nearest to an integer, ties to the even significand: the
    value of [Number(x)], and of the result of an operation, on integers.
    A double keeps the 53 leading bits. *)
Definition toNumber (z : Z) : Z :=
  let a := Z.abs z in
  let e := Z.log2 a - 52 in
  if e <=? 0 then z
  else
    let q := Z.shiftr a e in
    let r := a - Z.shiftl q e in
    let half := Z.shiftl 1 (e - 1) in
    let q' := if (half <? r) || ((half =? r) && Z.odd q) then q + 1 else q in
    Z.sgn z * Z.shiftl q' e.

(** [a + b] on numbers. *)
Definition numberAdd (a b : Z) : Z := toNumber (a + b).

(** A number in a template literal: its decimal digits (as JS prints the
    integers below 10^21). *)
Definition numberToString (n : Z) : string := pretty n.

(** White space of [String.prototype.trim] among the code units below 256:
    TAB, LF, VT, FF, CR, SP and NBSP. *)
Definition isWhiteSpace (c : ascii) : bool :=
  let n := nat_of_ascii c in
  ((9 <=? n)%nat && (n <=? 13)%nat) || (n =? 32)%nat || (n =? 160)%nat.

Fixpoint trimStart (s : string) : string :=
  match s with
  | EmptyString => EmptyString
  | String c r => if isWhiteSpace c then trimStart r else s
  end.

Fixpoint trimEnd (s : string) : string :=
  match s with
  | EmptyString => EmptyString
  | String c r =>
      let r' := trimEnd r in
      if isWhiteSpace c && negb (truthy r') then EmptyString else String c r'
  end.

Definition trim (s : string) : string := trimEnd (trimStart s).

(** [s.split('||')], with [cur] the piece read so far: every occurrence of
    the separator, found from left to right, closes a piece. *)
Fixpoint split_from (cur s : string) {struct s} : list string :=
  match s with
  | EmptyString => [cur]
  | String c r =>
      match r with
      | String c' r' =>
          if Ascii.eqb c "|" && Ascii.eqb c' "|"
          then cur :: split_from EmptyString r'
          else split_from (cur +:+ String c EmptyString) r
      | EmptyString => split_from (cur +:+ String c EmptyString) r
      end
  end.

Definition split (s : string) : list string := split_from EmptyString s.

(** [array.indexOf(x)]: the first index holding [x], or -1. *)
Fixpoint indexOf_from (i : Z) (l : list string) (x : string) : Z :=
  match l with
  | [] => -1
  | y :: l' => if bool_decide (y = x) then i else indexOf_from (i + 1) l' x
  end.

Definition indexOf (l : list string) (x : string) : Z := indexOf_from 0 l x.

(** A signed 32-bit integer. *)
Definition wrap32 (z : Z) : Z := (z + 2 ^ 31) mod 2 ^ 32 - 2 ^ 31.

(** Modelled from the spec: [utils.hashCode] of lib/utils is not part of
    the sources at hand; the spec describes it as the 32-bit rolling hash
    with multiplier 31 over the code units of the string, as Java's
    [String.hashCode]. *)
Definition hashCode (s : string) : Z :=
  fold_left (fun h c => wrap32 (31 * h + Z.of_nat (nat_of_ascii c)))
            (list_ascii_of_string s) 0.

(** ** Data model *)

(** A thrown [Error]. *)
Record JsError := mkError { name : string; message : string }.

Definition Error (msg : string) : JsError := mkError "Error" msg.

Module SubscriptionData.
Record t := mk {
  topic : string;
  subString : string;
  classFilterMode : bool;
  tagsSet : list string;
  codeSet : list Z;
  subVersion : Z
}.
End SubscriptionData.
Abbreviation SubscriptionData := SubscriptionData.t.

Module Message.
Record t := mk {
  tags : option string;      (* [undefined] when the message has no tag *)
  queueOffset : Z
}.
End Message.
Abbreviation Message := Message.t.

(** ** buildSubscriptionData *)

(** The body of [for (let tag of tags)]. *)
Definition pushTag (sd : SubscriptionData) (tag : string) : SubscriptionData :=
  let tag := trim tag in
  if truthy tag then
    SubscriptionData.mk
      (SubscriptionData.topic sd) (SubscriptionData.subString sd)
      (SubscriptionData.classFilterMode sd)
      (SubscriptionData.tagsSet sd ++ [tag])
      (SubscriptionData.codeSet sd ++ [hashCode tag])
      (SubscriptionData.subVersion sd)
  else sd.

(** [buildSubscriptionData(consumerGroup, topic, subString)]; [now] is the
    value of [Date.now()], [None] a null or undefined [subString]. *)
Definition buildSubscriptionData (now : Z) (consumerGroup topic : string)
    (subString : option string) : JsError + SubscriptionData :=
  let subscriptionData sub := SubscriptionData.mk topic sub false [] [] now in
  match subString with
  | None => inr (subscriptionData "*")
  | Some s =>
      if bool_decide (s = "*") || bool_decide (s = "") then
        inr (subscriptionData "*")
      else
        let tags := split s in
        if (0 <? Z.of_nat (length tags)) then
          inr (fold_left pushTag tags (subscriptionData s))
        else
          inl (Error "[mq:consumer] subString split error")
  end.

(** ** The client-side tag filter of the FOUND branch *)

Definition tagMatches (subscriptionData : SubscriptionData) (msg : Message) : bool :=
  match Message.tags msg with
  | Some t => truthy t && (0 <=? indexOf (SubscriptionData.tagsSet subscriptionData) t)
  | None => false
  end.

Definition filterByTags (subscriptionData : SubscriptionData)
    (msgList : list Message) : list Message :=
  if (0 <? Z.of_nat (length (SubscriptionData.tagsSet subscriptionData)))
     && negb (SubscriptionData.classFilterMode subscriptionData)
  then List.filter (tagMatches subscriptionData) msgList
  else msgList.

(** ** Queues, pull requests and pull results *)

Module MessageQueue.
Record t := mk { topic : string; brokerName : string; queueId : Z }.
End MessageQueue.
Abbreviation MessageQueue := MessageQueue.t.

(** Modelled from the spec: the class of lib/message_queue is not part of
    the sources at hand; its [key] is a canonical string built from the
    triple, and equality of queues is equality of the triple.  The key is
    represented by the triple itself. *)
Definition MQKey : Type := string * string * Z.

Definition key (mq : MessageQueue) : MQKey :=
  (MessageQueue.topic mq, MessageQueue.brokerName mq, MessageQueue.queueId mq).

(** Modelled from the spec: the class of lib/process_queue is not part of
    the sources at hand.  A fresh one is not dropped and has just been
    pulled; [isPullExpired] compares the time since the last pull with the
    pull-expiry threshold of two minutes. *)
Module ProcessQueue.
Record t := mk { droped : bool; lastPullTimestamp : Z }.
Definition create (now : Z) : t := mk false now.
Definition PULL_MAX_IDLE_TIME : Z := 120000.
Definition isPullExpired (now : Z) (pq : t) : bool :=
  PULL_MAX_IDLE_TIME <? now - lastPullTimestamp pq.
Definition set_droped (b : bool) (pq : t) : t := mk b (lastPullTimestamp pq).
Definition set_lastPullTimestamp (z : Z) (pq : t) : t := mk (droped pq) z.
End ProcessQueue.
Abbreviation ProcessQueue := ProcessQueue.t.

(** A row of the process-queue table: [{ messageQueue, processQueue,
    nextOffset }].  [removeProcessQueue] writes a property [droped] on the
    row itself; it is [false] while the row has none. *)
Module PullRequest.
Record t := mk {
  messageQueue : MessageQueue;
  processQueue : ProcessQueue;
  nextOffset : Z;
  droped : bool
}.
Definition set_processQueue (pq : ProcessQueue) (r : t) : t :=
  mk (messageQueue r) pq (nextOffset r) (droped r).
Definition set_nextOffset (z : Z) (r : t) : t :=
  mk (messageQueue r) (processQueue r) z (droped r).
Definition set_droped (b : bool) (r : t) : t :=
  mk (messageQueue r) (processQueue r) (nextOffset r) b.
End PullRequest.
Abbreviation PullRequest := PullRequest.t.

Inductive PullStatus := FOUND | NO_NEW_MSG | NO_MATCHED_MSG | OFFSET_ILLEGAL.

Module PullResult.
Record t := mk {
  pullStatus : PullStatus;
  nextBeginOffset : Z;
  suggestWhichBrokerId : Z;
  msgFoundList : list Message
}.
End PullResult.
Abbreviation PullResult := PullResult.t.

Inductive ConsumeFromWhere :=
  | CONSUME_FROM_LAST_OFFSET
  | CONSUME_FROM_LAST_OFFSET_AND_FROM_MIN_WHEN_BOOT_FIRST
  | CONSUME_FROM_MIN_OFFSET
  | CONSUME_FROM_MAX_OFFSET
  | CONSUME_FROM_FIRST_OFFSET
  | CONSUME_FROM_TIMESTAMP.

Inductive ReadOffsetType := READ_FROM_MEMORY | READ_FROM_STORE.
Inductive MessageModel := BROADCASTING | CLUSTERING.
Inductive ConsumeType := CONSUME_ACTIVELY | CONSUME_PASSIVELY.

#[global] Instance PullStatus_eq_dec : EqDecision PullStatus.
Proof. solve_decision. Defined.
#[global] Instance MessageModel_eq_dec : EqDecision MessageModel.
Proof. solve_decision. Defined.
#[global] Instance ConsumeType_eq_dec : EqDecision ConsumeType.
Proof. solve_decision. Defined.

(** Modelled from the spec: lib/mix_all is not part of the sources at
    hand; the spec gives the id of the master, 0, and the prefix of the
    retry topics. *)
Module MixAll.
Definition MASTER_ID : Z := 0.
Definition RETRY_GROUP_TOPIC_PREFIX : string := "%RETRY%".
End MixAll.

(** Modelled from the spec: lib/utils/pull_sys_flag is not part of the
    sources at hand; the spec gives the bit layout: bit 0 COMMIT_OFFSET,
    bit 1 SUSPEND, bit 2 SUBSCRIPTION, bit 3 CLASS_FILTER. *)
Module PullSysFlag.
Definition FLAG_COMMIT_OFFSET : Z := Z.shiftl 1 0.
Definition FLAG_SUSPEND : Z := Z.shiftl 1 1.
Definition FLAG_SUBSCRIPTION : Z := Z.shiftl 1 2.
Definition FLAG_CLASS_FILTER : Z := Z.shiftl 1 3.
Definition buildSysFlag (commitOffset suspend subscription classFilter : bool) : Z :=
  let flag := 0 in
  let flag := if commitOffset then Z.lor flag FLAG_COMMIT_OFFSET else flag in
  let flag := if suspend then Z.lor flag FLAG_SUSPEND else flag in
  let flag := if subscription then Z.lor flag FLAG_SUBSCRIPTION else flag in
  if classFilter then Z.lor flag FLAG_CLASS_FILTER else flag.
Definition clearCommitOffsetFlag (sysFlag : Z) : Z :=
  Z.land sysFlag (Z.lnot FLAG_COMMIT_OFFSET).
End PullSysFlag.

Module RequestHeader.
Record t := mk {
  consumerGroup : string;
  topic : string;
  queueId : Z;
  queueOffset : Z;
  maxMsgNums : Z;
  sysFlag : Z;
  commitOffset : Z;
  suspendTimeoutMillis : Z;
  subscription : option string;
  subVersion : Z
}.
End RequestHeader.
Abbreviation RequestHeader := RequestHeader.t.

(** What [findBrokerAddressInSubscribe] returns when it finds a broker. *)
Module FindBrokerResult.
Record t := mk { brokerAddr : string; slave : bool }.
End FindBrokerResult.
Abbreviation FindBrokerResult := FindBrokerResult.t.

(** The options the modelled methods read. *)
Module Options.
Record t := mk {
  isBroadcast : bool;
  brokerSuspendMaxTimeMillis : Z;
  pullTimeDelayMillsWhenException : Z;
  consumerTimeoutMillisWhenSuspend : Z;
  consumerGroup : string;
  consumeFromWhere : ConsumeFromWhere;
  consumeTimestamp : string;
  pullInterval : Z;
  pullBatchSize : Z;
  postSubscriptionWhenPull : bool
}.
End Options.
Abbreviation Options := Options.t.

(** ** A [Map], in insertion order *)

Section JsMap.
Context {K V : Type} `{EqDecision K}.

Fixpoint map_get (k : K) (m : list (K * V)) : option V :=
  match m with
  | [] => None
  | (k', v) :: m' => if bool_decide (k' = k) then Some v else map_get k m'
  end.

Definition map_has (k : K) (m : list (K * V)) : bool :=
  match map_get k m with Some _ => true | None => false end.

(** [set] keeps the place of a key that is present and appends a new one. *)
Fixpoint map_set (k : K) (v : V) (m : list (K * V)) : list (K * V) :=
  match m with
  | [] => [(k, v)]
  | (k', v') :: m' =>
      if bool_decide (k' = k) then (k, v) :: m' else (k', v') :: map_set k v m'
  end.

Fixpoint map_delete (k : K) (m : list (K * V)) : list (K * V) :=
  match m with
  | [] => []
  | (k', v') :: m' =>
      if bool_decide (k' = k) then map_delete k m' else (k', v') :: map_delete k m'
  end.

Definition map_keys (m : list (K * V)) : list K := map fst m.
End JsMap.

(** ** The consumer's fields *)

Definition loc := nat.

Module State.
Record t := mk {
  inited : bool;
  options : Options;
  subscriptions : list (string * SubscriptionData);
  processQueueTable : list (MQKey * loc);
  pullFromWhichNodeTable : list (MQKey * Z);
  heap : loc -> PullRequest;      (* the rows, by location *)
  next : loc;                     (* the first location not yet used *)
  now : Z                         (* the clock [Date.now()] reads *)
}.
Definition set_processQueueTable (f : list (MQKey * loc) -> list (MQKey * loc)) (s : t) : t :=
  mk (inited s) (options s) (subscriptions s) (f (processQueueTable s))
     (pullFromWhichNodeTable s) (heap s) (next s) (now s).
Definition set_pullFromWhichNodeTable (f : list (MQKey * Z) -> list (MQKey * Z)) (s : t) : t :=
  mk (inited s) (options s) (subscriptions s) (processQueueTable s)
     (f (pullFromWhichNodeTable s)) (heap s) (next s) (now s).
(** [row.field = value] on the row at [l]. *)
Definition update (l : loc) (f : PullRequest -> PullRequest) (s : t) : t :=
  mk (inited s) (options s) (subscriptions s) (processQueueTable s)
     (pullFromWhichNodeTable s)
     (fun l' => if bool_decide (l' = l) then f (heap s l) else heap s l')
     (next s) (now s).
(** A new row. *)
Definition alloc (r : PullRequest) (s : t) : t :=
  mk (inited s) (options s) (subscriptions s) (processQueueTable s)
     (pullFromWhichNodeTable s)
     (fun l' => if bool_decide (l' = next s) then r else heap s l')
     (S (next s)) (now s).
End State.
Abbreviation State := State.t.

Definition messageModel (s : State) : MessageModel :=
  if Options.isBroadcast (State.options s) then BROADCASTING else CLUSTERING.

Definition consumeType : ConsumeType := CONSUME_PASSIVELY.

(** ** Calls out of the consumer *)

(** The calls the modelled methods make on the offset store, the client,
    the timers, the listeners of [message] and the utilities. *)
Inductive Request :=
  (* awaited with [yield] *)
  | ReadOffset (mq : MessageQueue) (type : ReadOffsetType)
  | Persist (mq : MessageQueue)
  | Sleep (interval : Z)
  | PullMessage (brokerAddr : string) (requestHeader : RequestHeader) (timeout : Z)
  | UpdateTopicRouteInfoFromNameServer (topic : string)
  | MaxOffset (mq : MessageQueue)
  | SearchOffset (mq : MessageQueue) (timestamp : Z)
  | EmitMessage (msgList : list Message)
  (* plain calls *)
  | FindBrokerAddressInSubscribe (brokerName : string) (brokerId : Z) (onlyThisBroker : bool)
  | ParseDate (consumeTimestamp : string)
  | UpdateOffset (mq : MessageQueue) (offset : Z) (increaseOnly : bool)
  | RemoveOffset (mq : MessageQueue)
  | PullMessageQueue (mq : MessageQueue).

(** What a call gives back.  [EmitMessage] stands for the promise that
    emits the batch with its [done] callback: the reply is the time, in
    milliseconds, after which the listener calls [done], if it ever does.
    [ParseDate] gives [utils.parseDate(s).getTime()]; [PullMessageQueue]
    starts the worker of a queue. *)
Definition Reply (r : Request) : Type :=
  match r with
  | ReadOffset _ _ | MaxOffset _ | SearchOffset _ _ | ParseDate _ => Z
  | PullMessage _ _ _ => PullResult
  | EmitMessage _ => option Z
  | FindBrokerAddressInSubscribe _ _ _ => option FindBrokerResult
  | _ => unit
  end.

(** The calls at which the generator is suspended, so that other tasks of
    the consumer may run before it goes on. *)
Definition suspends (r : Request) : bool :=
  match r with
  | ReadOffset _ _ | Persist _ | Sleep _ | PullMessage _ _ _
  | UpdateTopicRouteInfoFromNameServer _ | MaxOffset _ | SearchOffset _ _
  | EmitMessage _ => true
  | _ => false
  end.

(** ** Generators as resumptions *)

(** A generator runs on the consumer's fields until it returns, throws, or
    makes a call and waits for the reply. *)
Inductive Res (A : Type) : Type :=
  | Done (a : A) (s : State)
  | Raise (e : JsError) (s : State)
  | Yield (r : Request) (s : State) (k : JsError + Reply r -> State -> Res A).
Arguments Raise {A} e s.

Definition M (A : Type) : Type := State -> Res A.

Fixpoint bindR {A B} (r : Res A) (f : A -> M B) : Res B :=
  match r with
  | Done a s => f a s
  | Raise e s => Raise e s
  | Yield q s k => Yield q s (fun x s' => bindR (k x s') f)
  end.

(** [try { r } catch (e) { h e }] *)
Fixpoint catchR {A} (r : Res A) (h : JsError -> M A) : Res A :=
  match r with
  | Done a s => Done a s
  | Raise e s => h e s
  | Yield q s k => Yield q s (fun x s' => catchR (k x s') h)
  end.

Definition ret {A} (a : A) : M A := fun s => Done a s.
Definition throw {A} (e : JsError) : M A := fun s => Raise e s.
Definition bind {A B} (m : M A) (f : A -> M B) : M B := fun s => bindR (m s) f.
Definition try_catch {A} (m : M A) (h : JsError -> M A) : M A :=
  fun s => catchR (m s) h.

Notation "x <- m ;; k" := (bind m (fun x => k))
  (at level 100, m at next level, k at level 200, right associativity).
Notation "m ;;; k" := (bind m (fun _ => k))
  (at level 100, k at level 200, right associativity).

(** A call: its reply is a value, or an exception thrown where the call
    stands. *)
Definition call (r : Request) : M (Reply r) :=
  fun s => Yield r s
             (fun x s' => match x with inl e => Raise e s' | inr v => Done v s' end).

Definition gets {A} (f : State -> A) : M A := fun s => Done (f s) s.
Definition modify (f : State -> State) : M unit := fun s => Done tt (f s).

(** [for (const x of l) { acc = body acc x }] *)
Fixpoint for_of {A X} (l : list X) (body : A -> X -> M A) (acc : A) : M A :=
  match l with
  | [] => ret acc
  | x :: l' => acc' <- body acc x ;; for_of l' body acc'
  end.

(** ** Running a generator *)

(** The environment answers every call, from the calls made before it, and
    says what the other tasks of the consumer have done to its fields by
    the time a suspended generator is resumed. *)
Record Env := mkEnv {
  answer : forall r : Request, list Request -> JsError + Reply r;
  meanwhile : Request -> list Request -> State -> State
}.

(** The outcome of a run: what the generator returned or threw, the fields
    of the consumer, and the calls made, in order. *)
Record Outcome (A : Type) := mkOutcome {
  result : JsError + A;
  final : State;
  trace : list Request
}.

Fixpoint run {A} (env : Env) (r : Res A) (tr : list Request) : Outcome A :=
  match r with
  | Done a s => mkOutcome (inr a) s tr
  | Raise e s => mkOutcome (inl e) s tr
  | Yield q s k =>
      let s' := if suspends q then meanwhile env q tr s else s in
      run env (k (answer env q tr) s') (tr ++ [q])
  end.

(** The calls of a run, each with the fields of the consumer at the moment
    it is made. *)
Fixpoint history {A} (env : Env) (r : Res A) (tr : list Request) : list (Request * State) :=
  match r with
  | Done _ _ | Raise _ _ => []
  | Yield q s k =>
      let s' := if suspends q then meanwhile env q tr s else s in
      (q, s) :: history env (k (answer env q tr) s') (tr ++ [q])
  end.

(** An environment in which no other task touches the consumer. *)
Definition quiet (answer : forall r : Request, list Request -> JsError + Reply r) : Env :=
  mkEnv answer (fun _ _ s => s).

(** ** The methods of MQPushConsumer *)

Definition readRow (l : loc) : M PullRequest := gets (fun s => State.heap s l).
Definition option_ (f : Options -> Z) : M Z := gets (fun s => f (State.options s)).

(** [processQueue.droped = true] on the process queue of the row at [l]. *)
Definition dropProcessQueue (l : loc) : M unit :=
  modify (State.update l (fun r =>
    PullRequest.set_processQueue
      (ProcessQueue.set_droped true (PullRequest.processQueue r)) r)).

Definition recalculatePullFromWhichNode (messageQueue : MessageQueue) : M Z :=
  t <- gets State.pullFromWhichNodeTable ;;
  ret (match map_get (key messageQueue) t with
       | Some brokerId => if truthyNumber brokerId then brokerId else MixAll.MASTER_ID
       | None => MixAll.MASTER_ID
       end).

Definition updatePullFromWhichNode (messageQueue : MessageQueue) (brokerId : Z) : M unit :=
  modify (State.set_pullFromWhichNodeTable (map_set (key messageQueue) brokerId)).

Definition findBrokerAddress (messageQueue : MessageQueue) : M (option FindBrokerResult) :=
  brokerId <- recalculatePullFromWhichNode messageQueue ;;
  findBrokerResult <-
    call (FindBrokerAddressInSubscribe (MessageQueue.brokerName messageQueue) brokerId false) ;;
  match findBrokerResult with
  | Some _ => ret findBrokerResult
  | None =>
      call (UpdateTopicRouteInfoFromNameServer (MessageQueue.topic messageQueue)) ;;;
      brokerId <- recalculatePullFromWhichNode messageQueue ;;
      call (FindBrokerAddressInSubscribe (MessageQueue.brokerName messageQueue) brokerId false)
  end.

(** [!!subExpression] *)
Definition hasExpression (subExpression : option string) : bool :=
  match subExpression with Some e => truthy e | None => false end.

Definition pullKernelImpl (messageQueue : MessageQueue) (subExpression : option string)
    (subVersion offset commitOffset : Z) : M PullResult :=
  let sysFlag :=
    PullSysFlag.buildSysFlag (0 <? commitOffset) true (hasExpression subExpression) false in
  result <- findBrokerAddress messageQueue ;;
  match result with
  | None =>
      throw (Error ("The broker[" +:+ MessageQueue.brokerName messageQueue +:+ "] not exist"))
  | Some result =>
      let sysFlag :=
        if FindBrokerResult.slave result
        then PullSysFlag.clearCommitOffsetFlag sysFlag else sysFlag in
      options <- gets State.options ;;
      let requestHeader :=
        RequestHeader.mk
          (Options.consumerGroup options)
          (MessageQueue.topic messageQueue)
          (MessageQueue.queueId messageQueue)
          offset
          (Options.pullBatchSize options)
          sysFlag
          commitOffset
          (Options.brokerSuspendMaxTimeMillis options)
          subExpression
          subVersion in
      call (PullMessage (FindBrokerResult.brokerAddr result) requestHeader
              (Options.consumerTimeoutMillisWhenSuspend options))
  end.

Definition correctTagsOffset (pullRequest : loc) : M unit :=
  row <- readRow pullRequest ;;
  call (UpdateOffset (PullRequest.messageQueue row) (PullRequest.nextOffset row) true).

Definition removeUnnecessaryMessageQueue (messageQueue : MessageQueue) : M bool :=
  call (Persist messageQueue) ;;;
  call (RemoveOffset messageQueue) ;;;
  ret true.

(** The variable [processQueue] of this method holds the row of the table,
    so that the flag is written on the row. *)
Definition removeProcessQueue (messageQueue : MessageQueue) : M unit :=
  t <- gets State.processQueueTable ;;
  let processQueue := map_get (key messageQueue) t in
  modify (State.set_processQueueTable (map_delete (key messageQueue))) ;;;
  match processQueue with
  | Some processQueue =>
      modify (State.update processQueue (PullRequest.set_droped true)) ;;;
      removeUnnecessaryMessageQueue messageQueue ;;;
      ret tt
  | None => ret tt
  end.

(** The promise that delivers a batch: the batch is emitted with its
    [done] callback, and a timer rejects the promise after 3000 ms. *)
Definition deliver (msgList : list Message) (topic : string)
    (firstMsgOffset lastMsgOffset : Z) : M unit :=
  let timeout :=
    Error ("Message process timeout for topic: " +:+ topic +:+ ", from " +:+
           numberToString firstMsgOffset +:+ " to " +:+
           numberToString lastMsgOffset +:+ ".") in
  done <- call (EmitMessage msgList) ;;
  match done with
  | Some t => if t <? 3000 then ret tt else throw timeout
  | None => throw timeout
  end.

(** [executePullRequestImmediately] from the reply of the pull on: the row
    [pullRequest] and [subscriptionData] are the ones read before it. *)
Definition handlePullResult (messageQueue : MessageQueue) (pullRequest : loc)
    (subscriptionData : SubscriptionData) (pullResult : PullResult) : M unit :=
  updatePullFromWhichNode messageQueue (PullResult.suggestWhichBrokerId pullResult) ;;;
  (* update next pull offset *)
  modify (State.update pullRequest
            (PullRequest.set_nextOffset (PullResult.nextBeginOffset pullResult))) ;;;
  match PullResult.pullStatus pullResult with
  | FOUND =>
      let msgList := filterByTags subscriptionData (PullResult.msgFoundList pullResult) in
      match msgList with
      | [] => ret tt
      | first :: _ =>
          let firstMsgOffset := toNumber (Message.queueOffset first) in
          let lastMsgOffset := toNumber (Message.queueOffset (List.last msgList first)) in
          deliver msgList (SubscriptionData.topic subscriptionData)
                  firstMsgOffset lastMsgOffset ;;;
          (* update offset *)
          call (UpdateOffset messageQueue (numberAdd lastMsgOffset 1) false)
      end
  | NO_NEW_MSG | NO_MATCHED_MSG => correctTagsOffset pullRequest
  | OFFSET_ILLEGAL =>
      dropProcessQueue pullRequest ;;;
      call (Sleep 10000) ;;;
      row <- readRow pullRequest ;;
      call (UpdateOffset messageQueue (PullRequest.nextOffset row) false) ;;;
      call (Persist messageQueue) ;;;
      removeProcessQueue messageQueue
  end ;;;
  (* update pull request *)
  modify (State.set_processQueueTable (map_set (key messageQueue) pullRequest)).

Definition executePullRequestImmediately (messageQueue : MessageQueue) : M unit :=
  t <- gets State.processQueueTable ;;
  match map_get (key messageQueue) t with
  | None => ret tt                                   (* close or queue removed *)
  | Some pullRequest =>
      row <- readRow pullRequest ;;
      if ProcessQueue.droped (PullRequest.processQueue row) then ret tt   (* queue droped *)
      else
        now <- gets State.now ;;
        modify (State.update pullRequest (fun r =>
          PullRequest.set_processQueue
            (ProcessQueue.set_lastPullTimestamp now (PullRequest.processQueue r)) r)) ;;;
        subscriptions <- gets State.subscriptions ;;
        match map_get (MessageQueue.topic messageQueue) subscriptions with
        | None =>
            delay <- option_ Options.pullTimeDelayMillsWhenException ;;
            call (Sleep delay) ;;;
            ret tt
        | Some subscriptionData =>
            post <- gets (fun s => Options.postSubscriptionWhenPull (State.options s)) ;;
            let subExpression :=
              if post then Some (SubscriptionData.subString subscriptionData) else None in
            let subVersion := SubscriptionData.subVersion subscriptionData in
            model <- gets messageModel ;;
            commitOffset <-
              (if bool_decide (CLUSTERING = model) then
                 row <- readRow pullRequest ;;
                 offset <- call (ReadOffset (PullRequest.messageQueue row) READ_FROM_MEMORY) ;;
                 ret (if truthyNumber offset then offset else 0)
               else ret 0) ;;
            row <- readRow pullRequest ;;
            pullResult <- pullKernelImpl messageQueue subExpression subVersion
                            (PullRequest.nextOffset row) commitOffset ;;
            handlePullResult messageQueue pullRequest subscriptionData pullResult
        end
  end.

(** The body of the loop of [pullMessageQueue]. *)
Definition pullRound (messageQueue : MessageQueue) : M unit :=
  try_catch
    (executePullRequestImmediately messageQueue ;;;
     interval <- option_ Options.pullInterval ;;
     call (Sleep interval))
    (fun err =>
       inited <- gets State.inited ;;
       if inited : bool then
         delay <- option_ Options.pullTimeDelayMillsWhenException ;;
         call (Sleep delay)
       else ret tt).

(** The loop of [pullMessageQueue], for at most [fuel] rounds.  It returns
    [true] when the loop has been left, [false] when the rounds are used up
    and the worker is still in the loop. *)
Fixpoint pullMessageQueue (fuel : nat) (messageQueue : MessageQueue) : M bool :=
  match fuel with
  | O => ret false
  | S fuel =>
      t <- gets State.processQueueTable ;;
      if map_has (key messageQueue) t then
        pullRound messageQueue ;;;
        pullMessageQueue fuel messageQueue
      else ret true
  end.

(** ** Rebalance *)

(** [topic.indexOf(RETRY_GROUP_TOPIC_PREFIX) === 0] *)
Definition isRetryTopic (topic : string) : bool :=
  String.prefix MixAll.RETRY_GROUP_TOPIC_PREFIX topic.

Definition computePullFromWhere (messageQueue : MessageQueue) : M Z :=
  try_catch
    (lastOffset <- call (ReadOffset messageQueue READ_FROM_STORE) ;;
     let result := -1 in
     consumeFromWhere <- gets (fun s => Options.consumeFromWhere (State.options s)) ;;
     match consumeFromWhere with
     | CONSUME_FROM_LAST_OFFSET_AND_FROM_MIN_WHEN_BOOT_FIRST
     | CONSUME_FROM_MIN_OFFSET
     | CONSUME_FROM_MAX_OFFSET
     | CONSUME_FROM_LAST_OFFSET =>
         if 0 <=? lastOffset then ret lastOffset
         else if lastOffset =? -1 then
           if isRetryTopic (MessageQueue.topic messageQueue) then ret 0
           else call (MaxOffset messageQueue)
         else ret result
     | CONSUME_FROM_FIRST_OFFSET =>
         if 0 <=? lastOffset then ret lastOffset else ret 0
     | CONSUME_FROM_TIMESTAMP =>
         if 0 <=? lastOffset then ret lastOffset
         else if lastOffset =? -1 then
           if isRetryTopic (MessageQueue.topic messageQueue) then
             call (MaxOffset messageQueue)
           else
             consumeTimestamp <- gets (fun s => Options.consumeTimestamp (State.options s)) ;;
             timestamp <- call (ParseDate consumeTimestamp) ;;
             call (SearchOffset messageQueue timestamp)
         else ret result
     end)
    (fun err => ret (-1)).

(** [mqSet.some(mq => mq.key === messageQueue.key)] *)
Definition someKey (mqSet : list MessageQueue) (messageQueue : MessageQueue) : bool :=
  existsb (fun mq => bool_decide (key mq = key messageQueue)) mqSet.

(** One round of the loop that deletes the unnecessary queues.  The loop
    runs over the live keys of the table: a key that is no longer there
    when its turn comes is not visited.  The rows of the table are objects,
    so the test [!obj] of the source never holds. *)
Definition removeIfUnnecessary (topic : string) (mqSet : list MessageQueue)
    (changed : bool) (k : MQKey) : M bool :=
  t <- gets State.processQueueTable ;;
  match map_get k t with
  | None => ret changed
  | Some obj =>
      row <- readRow obj ;;
      let messageQueue := PullRequest.messageQueue row in
      now <- gets State.now ;;
      if bool_decide (topic = MessageQueue.topic messageQueue) then
        (* not found in mqSet, that means the process queue is unnecessary. *)
        if negb (someKey mqSet messageQueue) then
          dropProcessQueue obj ;;;
          removed <- removeUnnecessaryMessageQueue messageQueue ;;
          if removed : bool then
            modify (State.set_processQueueTable (map_delete k)) ;;;
            ret true
          else ret changed
        else ret changed
      else if ProcessQueue.isPullExpired now (PullRequest.processQueue row)
              && bool_decide (consumeType = CONSUME_PASSIVELY) then
        dropProcessQueue obj ;;;
        removed <- removeUnnecessaryMessageQueue messageQueue ;;
        if removed : bool then
          modify (State.set_processQueueTable (map_delete k)) ;;;
          ret true
        else ret changed
      else ret changed
  end.

(** The first loop of [updateProcessQueueTableInRebalance]. *)
Definition removeUnnecessaryQueues (topic : string) (mqSet : list MessageQueue)
    (changed : bool) : M bool :=
  t <- gets State.processQueueTable ;;
  for_of (map_keys t) (removeIfUnnecessary topic mqSet) changed.

(** One round of its second loop.  Starting the worker is a call of its
    own: the worker is another task. *)
Definition addIfMissing (changed : bool) (messageQueue : MessageQueue) : M bool :=
  t <- gets State.processQueueTable ;;
  if map_has (key messageQueue) t then ret changed
  else
    nextOffset <- computePullFromWhere messageQueue ;;
    (* double check *)
    t <- gets State.processQueueTable ;;
    if map_has (key messageQueue) t then ret changed
    else if 0 <=? nextOffset then
      now <- gets State.now ;;
      let processQueue := ProcessQueue.create now in
      l <- gets State.next ;;
      modify (State.alloc (PullRequest.mk messageQueue processQueue nextOffset false)) ;;;
      modify (State.set_processQueueTable (map_set (key messageQueue) l)) ;;;
      (* start to pull this queue *)
      call (PullMessageQueue messageQueue) ;;;
      ret true
    else ret changed.

Definition updateProcessQueueTableInRebalance (topic : string)
    (mqSet : list MessageQueue) : M bool :=
  let changed := false in
  changed <- removeUnnecessaryQueues topic mqSet changed ;;
  for_of mqSet addIfMissing changed.

(** ** The other helpers of the module *)

(** [a > b] on strings: the order of their code units. *)
Definition string_gt (a b : string) : bool :=
  match String.compare a b with Gt => true | _ => false end.

(** The order in which [rebalanceByTopic] sorts the queues of a topic. *)
Definition compare (mqA mqB : MessageQueue) : Z :=
  if bool_decide (MessageQueue.topic mqA = MessageQueue.topic mqB) then
    if bool_decide (MessageQueue.brokerName mqA = MessageQueue.brokerName mqB) then
      MessageQueue.queueId mqA - MessageQueue.queueId mqB
    else if string_gt (MessageQueue.brokerName mqA) (MessageQueue.brokerName mqB) then 1
    else -1
  else if string_gt (MessageQueue.topic mqA) (MessageQueue.topic mqB) then 1
  else -1.

(** [updateTopicSubscribeInfo(topic, info)], on the two tables it uses: it
    returns the new [_topicSubscribeInfoTable]. *)
Definition updateTopicSubscribeInfo (subscriptions : list (string * SubscriptionData))
    (topicSubscribeInfoTable : list (string * list MessageQueue))
    (topic : string) (info : list MessageQueue) : list (string * list MessageQueue) :=
  if map_has topic subscriptions then map_set topic info topicSubscribeInfoTable
  else topicSubscribeInfoTable.

Definition isSubscribeTopicNeedUpdate (subscriptions : list (string * SubscriptionData))
    (topicSubscribeInfoTable : list (string * list MessageQueue)) (topic : string) : bool :=
  if map_has topic subscriptions then negb (map_has topic topicSubscribeInfoTable)
  else false.

(** * What the properties are stated with *)

(** The tokens of an expression that reach [tagsSet]: the trimmed pieces
    that are not empty, in order and with their repetitions. *)
Definition tokens (s : string) : list string :=
  List.filter truthy (map trim (split s)).

(** The messages whose [tags] field is a member of [tagsSet]. *)
Definition tagIn (tagsSet : list string) (msg : Message) : bool :=
  match Message.tags msg with
  | Some t => bool_decide (t ∈ tagsSet)
  | None => false
  end.

(** Every call the generator can make satisfies [P], whatever it is
    answered. *)
Fixpoint always {A} (P : Request -> Prop) (r : Res A) : Prop :=
  match r with
  | Done _ _ | Raise _ _ => True
  | Yield q _ k => P q /\ forall x s', always P (k x s')
  end.

(** The generator keeps [I] on the fields of the consumer, as long as the
    other tasks keep it. *)
Fixpoint preserves {A} (I : State -> Prop) (r : Res A) : Prop :=
  match r with
  | Done _ s | Raise _ s => I s
  | Yield q s k => I s /\ forall x s', I s' -> preserves I (k x s')
  end.

(** A method keeps [I] on the fields of the consumer. *)
Definition keeps {A} (I : State -> Prop) (m : M A) : Prop :=
  forall s, I s -> preserves I (m s).

(** The batches handed to the listeners hold tagged messages of [tagsSet]
    only. *)
Definition deliversOnly (tagsSet : list string) (q : Request) : Prop :=
  match q with
  | EmitMessage batch =>
      forall msg, In msg batch -> exists t, Message.tags msg = Some t /\ t ∈ tagsSet
  | _ => True
  end.

(** The call is the pull RPC. *)
Definition isPullMessage (q : Request) : bool :=
  match q with PullMessage _ _ _ => true | _ => false end.

(** The pulls carry [commitOffset] [c], and the COMMIT_OFFSET bit only
    with a positive [c]. *)
Definition pullsWith (c : Z) (q : Request) : Prop :=
  match q with
  | PullMessage _ requestHeader _ =>
      RequestHeader.commitOffset requestHeader = c /\
      (Z.testbit (RequestHeader.sysFlag requestHeader) 0 = true -> 0 < c)
  | _ => True
  end.

(** The offset a call gave, and -1 when it threw. *)
Definition orMinus1 (x : JsError + Z) : Z :=
  match x with inr offset => offset | inl _ => -1 end.

(** The process queue of the row at [l], a row in use, is dropped. *)
Definition isDropped (l : loc) (s : State) : Prop :=
  (l < State.next s)%nat /\
  ProcessQueue.droped (PullRequest.processQueue (State.heap s l)) = true.

(** The writes of the methods on a row: none clears the flag of its
    process queue. *)
Definition keepsFlag (f : PullRequest -> PullRequest) : Prop :=
  forall r, ProcessQueue.droped (PullRequest.processQueue r) = true ->
            ProcessQueue.droped (PullRequest.processQueue (f r)) = true.

(** The rows that the first loop of [updateProcessQueueTableInRebalance]
    takes for unnecessary: those of the rebalanced topic whose queue is not
    assigned, and those of another topic whose process queue is
    pull-expired. *)
Definition unnecessary (topic : string) (mqSet : list MessageQueue) (now : Z)
    (row : PullRequest) : bool :=
  if bool_decide (topic = MessageQueue.topic (PullRequest.messageQueue row))
  then negb (someKey mqSet (PullRequest.messageQueue row))
  else ProcessQueue.isPullExpired now (PullRequest.processQueue row).

(** [processQueue.droped = true] on a row. *)
Definition dropRow (r : PullRequest) : PullRequest :=
  PullRequest.set_processQueue (ProcessQueue.set_droped true (PullRequest.processQueue r)) r.

(** What the pass leaves of the rows: the queue and the time of the last
    pull of every row, and the flags that were set. *)
Definition sameRows (c c' : State) : Prop :=
  State.now c' = State.now c /\
  forall l,
    PullRequest.messageQueue (State.heap c' l) = PullRequest.messageQueue (State.heap c l) /\
    ProcessQueue.lastPullTimestamp (PullRequest.processQueue (State.heap c' l)) =
      ProcessQueue.lastPullTimestamp (PullRequest.processQueue (State.heap c l)) /\
    (ProcessQueue.droped (PullRequest.processQueue (State.heap c l)) = true ->
     ProcessQueue.droped (PullRequest.processQueue (State.heap c' l)) = true).

(** The entry of the table is one the removal pass takes for unnecessary. *)
Definition gone (topic : string) (mqSet : list MessageQueue) (c : State)
    (e : MQKey * loc) : bool :=
  unnecessary topic mqSet (State.now c) (State.heap c (snd e)).

(** * A consumer to try the methods on *)

(** A consumer of group [group] that owns queue 0 of [TopicTest] on
    [broker-a], subscribed with [TagA||TagB], in cluster mode. *)
Module Scenario.
Definition mq : MessageQueue := MessageQueue.mk "TopicTest" "broker-a" 0.

Definition options : Options :=
  Options.mk false 15000 3000 30000 "group" CONSUME_FROM_LAST_OFFSET
             "20131223171201" 0 32 true.

Definition sd : SubscriptionData :=
  SubscriptionData.mk "TopicTest" "TagA||TagB" false
    ["TagA"; "TagB"] [2598919; 2598920] 7.

Definition row (dropped : bool) (lastPullTimestamp : Z) : PullRequest :=
  PullRequest.mk mq (ProcessQueue.mk dropped lastPullTimestamp) 5 false.

(** The queue was last pulled at [lastPullTimestamp]; the clock shows
    [now]. *)
Definition state (dropped : bool) (lastPullTimestamp now : Z) : State :=
  State.mk true options [("TopicTest", sd)] [(key mq, 0%nat)] []
           (fun _ => row dropped lastPullTimestamp) 1%nat now.

Definition msg (tag : string) (queueOffset : Z) : Message :=
  Message.mk (Some tag) queueOffset.

(** The broker is found at once; the store holds [stored] for every
    queue; a pull is answered by [pullResult]; the listener calls [done]
    after [ack] milliseconds. *)
Definition answers (stored : Z) (pullResult : PullResult) (ack : option Z)
    (r : Request) (_ : list Request) : JsError + Reply r :=
  match r with
  | ReadOffset _ _ => inr stored
  | MaxOffset _ => inr 42
  | SearchOffset _ _ => inr 17
  | ParseDate _ => inr 1387818721000
  | PullMessage _ _ _ => inr pullResult
  | EmitMessage _ => inr ack
  | FindBrokerAddressInSubscribe _ _ _ =>
      inr (Some (FindBrokerResult.mk "10.0.0.1:10911" false))
  | _ => inr tt
  end.

Definition found : PullResult :=
  PullResult.mk FOUND 8 0 [msg "TagA" 5; msg "TagC" 6; msg "TagB" 7].

Definition header (commitOffset sysFlag : Z) : RequestHeader :=
  RequestHeader.mk "group" "TopicTest" 0 5 32 sysFlag commitOffset 15000
                   (Some "TagA||TagB") 7.
End Scenario.

(** The broker finds the offset of the pull illegal and suggests 100. *)
Definition illegal : PullResult := PullResult.mk OFFSET_ILLEGAL 100 0 [].

(** While the pull of a worker is outstanding, a rebalance that assigns no
    queue of the topic runs. *)
Definition rebalanceWhilePulling
    (ans : forall r : Request, list Request -> JsError + Reply r) : Env :=
  mkEnv ans (fun q _ s =>
    if isPullMessage q
    then final (run (quiet ans) (updateProcessQueueTableInRebalance "TopicTest" [] s) [])
    else s).

(** A string without the character of the separator. *)
Fixpoint barFree (t : string) : bool :=
  match t with
  | EmptyString => true
  | String c r => negb (Ascii.eqb c "|") && barFree r
  end.

(** A tag as [buildSubscriptionData] keeps it: not empty, trimmed, and,
    here, written without ['|']. *)
Definition cleanTag (t : string) : Prop :=
  truthy t = true /\ trim t = t /\ barFree t = true.

(** The batches handed to the listeners are the filtered list [batch]. *)
Definition emitsOnly (batch : list Message) (q : Request) : Prop :=
  match q with EmitMessage b => b = batch /\ b <> [] | _ => True end.

(** The pulls ask for the offset [o] of the queue of [mq], with the
    expression [e] of version [v]; SUSPEND is set, CLASS_FILTER is not, and
    SUBSCRIPTION is set when an expression is sent. *)
Definition pullsAt (mq : MessageQueue) (e : option string) (v o : Z) (q : Request) : Prop :=
  match q with
  | PullMessage _ h _ =>
      RequestHeader.topic h = MessageQueue.topic mq /\
      RequestHeader.queueId h = MessageQueue.queueId mq /\
      RequestHeader.queueOffset h = o /\
      RequestHeader.subscription h = e /\
      RequestHeader.subVersion h = v /\
      Z.testbit (RequestHeader.sysFlag h) 1 = true /\
      Z.testbit (RequestHeader.sysFlag h) 2 = hasExpression e /\
      Z.testbit (RequestHeader.sysFlag h) 3 = false
  | _ => True
  end.

(** The call is a read of the offset store. *)
Definition isReadOffset (q : Request) : bool :=
  match q with ReadOffset _ _ => true | _ => false end.

(** The row at [l] is to be pulled from [offset] next. *)
Definition pullsNext (l : loc) (offset : Z) (s : State) : Prop :=
  PullRequest.nextOffset (State.heap s l) = offset.

(** The queues whose worker is started by the calls of a trace. *)
Definition started (tr : list Request) : list MessageQueue :=
  flat_map (fun q => match q with PullMessageQueue mq => [mq] | _ => [] end) tr.

(** The row that the rebalance makes for a queue it adds. *)
Definition newRow (mq : MessageQueue) (now nextOffset : Z) : PullRequest :=
  PullRequest.mk mq (ProcessQueue.create now) nextOffset false.

(** What the pass that adds the queues [mqs] leaves, from the fields [c]
    on: [more] are the calls it made and [out] its outcome.  The bindings
    of the table and the rows in use are kept; a key that is new is the key
    of a queue whose worker the pass has started, bound to a new row; a
    worker is started for new keys only, once per key. *)
Definition addPost (ans : forall r : Request, list Request -> JsError + Reply r)
    (mqs : list MessageQueue) (c : State) (changed : bool) (more : list Request)
    (out : Outcome bool) : Prop :=
  (exists b, result out = inr b /\ (b = true <-> changed = true \/ started more <> [])) /\
  (State.next c <= State.next (final out))%nat /\
  State.now (final out) = State.now c /\
  (forall l, (l < State.next c)%nat -> State.heap (final out) l = State.heap c l) /\
  (forall k l, map_get k (State.processQueueTable c) = Some l ->
               map_get k (State.processQueueTable (final out)) = Some l) /\
  (forall k, map_get k (State.processQueueTable c) = None ->
     match map_get k (State.processQueueTable (final out)) with
     | None => ~ In k (map key (started more))
     | Some l =>
         (State.next c <= l < State.next (final out))%nat /\
         exists mq z,
           k = key mq /\ In mq (started more) /\ 0 <= z /\
           State.heap (final out) l = newRow mq (State.now c) z /\
           ~ (forall h, exists e, ans (ReadOffset mq READ_FROM_STORE) h = inl e)
     end) /\
  (forall mq, In mq (started more) ->
     map_get (key mq) (State.processQueueTable c) = None /\ In mq mqs) /\
  List.NoDup (map key (started more)) /\
  ((forall mq h, exists z, ans (ReadOffset mq READ_FROM_STORE) h = inr z /\ 0 <= z) ->
   forall mq, In mq mqs -> map_has (key mq) (State.processQueueTable (final out)) = true).

(** The table as the methods keep it: its keys are distinct, and every key
    is bound to a row in use that holds the queue of that key. *)
Definition tableOk (s : State) : Prop :=
  List.NoDup (map_keys (State.processQueueTable s)) /\
  forall k l, In (k, l) (State.processQueueTable s) ->
    (l < State.next s)%nat /\ key (PullRequest.messageQueue (State.heap s l)) = k.

(** * Properties *)

(** ** Subscription expressions *)

Lemma split_from_not_nil (s cur : string) : split_from cur s <> [].
Proof.
  revert cur; induction s as [|c r IH]; intros cur; simpl; [discriminate|].
  destruct r as [|c' r']; [apply IH|].
  destruct (Ascii.eqb c "|" && Ascii.eqb c' "|"); [discriminate | apply IH].
Qed.

Lemma split_length_pos (s : string) : (0 <? Z.of_nat (length (split s))) = true.
Proof.
  unfold split. pose proof (split_from_not_nil s EmptyString) as H.
  destruct (split_from EmptyString s); [congruence | reflexivity].
Qed.

Lemma fold_pushTag (tags : list string) (sd : SubscriptionData) :
  fold_left pushTag tags sd =
  SubscriptionData.mk
    (SubscriptionData.topic sd) (SubscriptionData.subString sd)
    (SubscriptionData.classFilterMode sd)
    (SubscriptionData.tagsSet sd ++ List.filter truthy (map trim tags))
    (SubscriptionData.codeSet sd ++ map hashCode (List.filter truthy (map trim tags)))
    (SubscriptionData.subVersion sd).
Proof.
  revert sd; induction tags as [|tag tags IH]; intros sd; simpl.
  - rewrite !app_nil_r. destruct sd; reflexivity.
  - rewrite IH. unfold pushTag.
    destruct (truthy (trim tag)); simpl; [|reflexivity].
    rewrite <- !app_assoc. reflexivity.
Qed.

Lemma wrap32_range (z : Z) : - 2 ^ 31 <= wrap32 z < 2 ^ 31.
Proof. unfold wrap32. pose proof (Z.mod_pos_bound (z + 2 ^ 31) (2 ^ 32)). lia. Qed.

Lemma hashCode_range (s : string) : - 2 ^ 31 <= hashCode s < 2 ^ 31.
Proof.
  unfold hashCode.
  assert (G : forall l h, - 2 ^ 31 <= h < 2 ^ 31 ->
    - 2 ^ 31 <= fold_left (fun h c => wrap32 (31 * h + Z.of_nat (nat_of_ascii c))) l h < 2 ^ 31).
  { induction l as [|c l IH]; intros h Hh; simpl; [exact Hh|].
    apply IH, wrap32_range. }
  apply G. lia.
Qed.

Lemma indexOf_from_spec (l : list string) (x : string) (i : Z) :
  (x ∈ l -> i <= indexOf_from i l x) /\ (x ∉ l -> indexOf_from i l x = -1).
Proof.
  revert i; induction l as [|y l IH]; intros i; simpl.
  - split; [intros H; inversion H | reflexivity].
  - case_bool_decide as E.
    + subst. split; [lia | intros H; exfalso; apply H; left].
    + destruct (IH (i + 1)) as [IH1 IH2]. split.
      * intros H. apply elem_of_cons in H as [H|H]; [congruence|].
        specialize (IH1 H). lia.
      * intros H. apply IH2. intros H'. apply H. right. exact H'.
Qed.

Lemma indexOf_nonneg (l : list string) (x : string) :
  (0 <=? indexOf l x) = bool_decide (x ∈ l).
Proof.
  unfold indexOf. destruct (indexOf_from_spec l x 0) as [H1 H2].
  case_bool_decide as E.
  - apply Z.leb_le. auto.
  - rewrite (H2 E). reflexivity.
Qed.

Lemma tagMatches_tagIn (sd : SubscriptionData) (msg : Message) :
  Forall (fun t => truthy t = true) (SubscriptionData.tagsSet sd) ->
  tagMatches sd msg = tagIn (SubscriptionData.tagsSet sd) msg.
Proof.
  intros Hall. unfold tagMatches, tagIn.
  destruct (Message.tags msg) as [t|]; [|reflexivity].
  rewrite indexOf_nonneg. case_bool_decide as E; [|apply andb_false_r].
  rewrite Forall_forall in Hall. rewrite (Hall t E). reflexivity.
Qed.

Lemma tokens_truthy (s : string) : Forall (fun t => truthy t = true) (tokens s).
Proof.
  apply Forall_forall. intros t Ht. unfold tokens in Ht.
  apply list_elem_of_In, filter_In in Ht. tauto.
Qed.

Lemma buildSubscriptionData_tags_truthy now g topic sub sd :
  buildSubscriptionData now g topic sub = inr sd ->
  Forall (fun t => truthy t = true) (SubscriptionData.tagsSet sd).
Proof.
  unfold buildSubscriptionData. destruct sub as [s|].
  - destruct (bool_decide (s = "*") || bool_decide (s = "")).
    + intros [= <-]. constructor.
    + rewrite split_length_pos, fold_pushTag. intros [= <-]. simpl. apply tokens_truthy.
  - intros [= <-]. constructor.
Qed.

Lemma buildSubscriptionData_returns (now : Z) (consumerGroup topic : string)
    (subString : option string) :
  exists sd, buildSubscriptionData now consumerGroup topic subString = inr sd.
Proof.
  unfold buildSubscriptionData. destruct subString as [s|]; [|eauto].
  destruct (bool_decide (s = "*") || bool_decide (s = "")); [eauto|].
  rewrite split_length_pos. eauto.
Qed.

(** C9 (as amended).  [buildSubscriptionData] maps a null, empty or ['*']
    expression to [subString] ['*'] with empty [tagsSet] and [codeSet];
    any other expression is split on ['||'], every piece is trimmed, and
    every trimmed piece that is not empty is appended to [tagsSet], in
    order and with its repetitions, and its 32-bit hash to [codeSet] at the
    same place; no expression is rejected. *)
Theorem buildSubscriptionData_spec (now : Z) (consumerGroup topic : string)
    (subString : option string) :
  (subString = None \/ subString = Some "" \/ subString = Some "*" ->
   buildSubscriptionData now consumerGroup topic subString =
     inr (SubscriptionData.mk topic "*" false [] [] now)) /\
  (forall s, subString = Some s -> s <> "" -> s <> "*" ->
   buildSubscriptionData now consumerGroup topic subString =
     inr (SubscriptionData.mk topic s false (tokens s) (map hashCode (tokens s)) now) /\
   Forall (fun code => - 2 ^ 31 <= code < 2 ^ 31) (map hashCode (tokens s))) /\
  (exists sd, buildSubscriptionData now consumerGroup topic subString = inr sd).
Proof.
  split; [|split].
  - intros [-> | [-> | ->]]; reflexivity.
  - intros s -> Hne Hstar. split.
    + unfold buildSubscriptionData.
      rewrite !bool_decide_eq_false_2 by assumption. simpl.
      rewrite split_length_pos, fold_pushTag. reflexivity.
    + apply Forall_forall. intros code Hc.
      apply list_elem_of_In, in_map_iff in Hc as [t [<- _]]. apply hashCode_range.
  - apply buildSubscriptionData_returns.
Qed.

Lemma buildSubscriptionData_spec_witness :
  buildSubscriptionData 7 "group" "TopicTest" (Some "*") =
    inr (SubscriptionData.mk "TopicTest" "*" false [] [] 7) /\
  buildSubscriptionData 7 "group" "TopicTest" (Some " TagA || TagB||") =
    inr (SubscriptionData.mk "TopicTest" " TagA || TagB||" false
           ["TagA"; "TagB"] [2598919; 2598920] 7).
Proof.
  split.
  - apply (proj1 (buildSubscriptionData_spec 7 "group" "TopicTest" (Some "*"))).
    right; right; reflexivity.
  - apply (proj1 (proj1 (proj2 (buildSubscriptionData_spec 7 "group" "TopicTest"
                                  (Some " TagA || TagB||")))
                    " TagA || TagB||" eq_refl ltac:(discriminate) ltac:(discriminate))).
Defined.

(** C9, as stated, fails: a tag that is written twice is held twice, and
    the empty expression is not rejected. *)
Lemma buildSubscriptionData_repeats_tag :
  buildSubscriptionData 0 "group" "TopicTest" (Some "TagA||TagA") =
    inr (SubscriptionData.mk "TopicTest" "TagA||TagA" false
           ["TagA"; "TagA"] [2598919; 2598919] 0) /\
  ~ NoDup ["TagA"; "TagA"] /\
  buildSubscriptionData 0 "group" "TopicTest" (Some "") =
    inr (SubscriptionData.mk "TopicTest" "*" false [] [] 0).
Proof.
  split; [reflexivity|]. split; [|reflexivity].
  intros H. apply NoDup_cons in H as [H _]. apply H. left.
Qed.

(** C10.  [buildSubscriptionData] returns a subscription for every input:
    a string splits on ['||'] into at least one piece, so the branch that
    throws is never taken; when every piece is empty once trimmed, as for
    ['||'], [tagsSet] is empty, and the filter of the FOUND branch then
    keeps every message. *)
Theorem buildSubscriptionData_never_throws (now : Z) (consumerGroup topic : string)
    (subString : option string) :
  (exists sd, buildSubscriptionData now consumerGroup topic subString = inr sd) /\
  (forall s, split s <> []) /\
  (forall s sd,
     subString = Some s ->
     Forall (fun piece => trim piece = "") (split s) ->
     buildSubscriptionData now consumerGroup topic subString = inr sd ->
     SubscriptionData.tagsSet sd = [] /\
     forall msgList, filterByTags sd msgList = msgList).
Proof.
  split; [apply buildSubscriptionData_returns|]. split.
  - intros s. apply split_from_not_nil.
  - intros s sd -> Hall Hsd.
    assert (Ht : SubscriptionData.tagsSet sd = []).
    { unfold buildSubscriptionData in Hsd.
      destruct (bool_decide (s = "*") || bool_decide (s = "")).
      - injection Hsd as <-. reflexivity.
      - rewrite split_length_pos, fold_pushTag in Hsd. injection Hsd as <-. simpl.
        induction Hall as [|piece l Hp _ IH]; [reflexivity|].
        simpl. rewrite Hp. simpl. exact IH. }
    split; [exact Ht|]. intros msgList. unfold filterByTags. rewrite Ht. reflexivity.
Qed.

Lemma buildSubscriptionData_never_throws_witness :
  SubscriptionData.tagsSet
    (SubscriptionData.mk "TopicTest" "||" false [] [] 7) = [] /\
  forall msgList,
    filterByTags (SubscriptionData.mk "TopicTest" "||" false [] [] 7) msgList = msgList.
Proof.
  apply (proj2 (proj2 (buildSubscriptionData_never_throws 7 "group" "TopicTest" (Some "||")))
           "||" _ eq_refl).
  - repeat constructor.
  - reflexivity.
Defined.

(** ** Reasoning on generators *)

Lemma always_run {A} (env : Env) (P : Request -> Prop) (r : Res A) :
  always P r -> forall tr, Forall P tr -> Forall P (trace (run env r tr)).
Proof.
  induction r as [a s|e s|q s k IH]; simpl; intros Hr tr Htr; try exact Htr.
  destruct Hr as [Hq Hk]. apply IH; [apply Hk|].
  apply Forall_app; split; [exact Htr | repeat constructor; exact Hq].
Qed.

Lemma always_bindR {A B} (P : Request -> Prop) (r : Res A) (f : A -> M B) :
  always P r -> (forall a s, always P (f a s)) -> always P (bindR r f).
Proof.
  induction r as [a s|e s|q s k IH]; simpl; intros Hr Hf; [apply Hf | exact I |].
  destruct Hr as [Hq Hk]. split; [exact Hq|]. intros x s'. apply IH; [apply Hk | exact Hf].
Qed.

Lemma always_catchR {A} (P : Request -> Prop) (r : Res A) (h : JsError -> M A) :
  always P r -> (forall e s, always P (h e s)) -> always P (catchR r h).
Proof.
  induction r as [a s|e s|q s k IH]; simpl; intros Hr Hh; [exact I | apply Hh |].
  destruct Hr as [Hq Hk]. split; [exact Hq|]. intros x s'. apply IH; [apply Hk | exact Hh].
Qed.

Lemma always_call (P : Request -> Prop) (q : Request) (s : State) :
  P q -> always P (call q s).
Proof. intros Hq. simpl. split; [exact Hq|]. intros [e|v] s'; exact I. Qed.

Lemma preserves_run {A} (env : Env) (I : State -> Prop) (r : Res A) :
  (forall q tr s, I s -> I (meanwhile env q tr s)) ->
  preserves I r -> forall tr, I (final (run env r tr)).
Proof.
  intros Henv. induction r as [a s|e s|q s k IH]; simpl; intros Hr tr; try exact Hr.
  destruct Hr as [Hs Hk]. apply IH, Hk. destruct (suspends q); auto.
Qed.

Lemma preserves_bindR {A B} (I : State -> Prop) (r : Res A) (f : A -> M B) :
  preserves I r -> (forall a s, I s -> preserves I (f a s)) -> preserves I (bindR r f).
Proof.
  induction r as [a s|e s|q s k IH]; simpl; intros Hr Hf; [apply Hf, Hr | exact Hr |].
  destruct Hr as [Hq Hk]. split; [exact Hq|]. intros x s' Hs'. apply IH; [apply Hk, Hs' | exact Hf].
Qed.

Lemma preserves_catchR {A} (I : State -> Prop) (r : Res A) (h : JsError -> M A) :
  preserves I r -> (forall e s, I s -> preserves I (h e s)) -> preserves I (catchR r h).
Proof.
  induction r as [a s|e s|q s k IH]; simpl; intros Hr Hh; [exact Hr | apply Hh, Hr |].
  destruct Hr as [Hq Hk]. split; [exact Hq|]. intros x s' Hs'. apply IH; [apply Hk, Hs' | exact Hh].
Qed.

Lemma preserves_call (I : State -> Prop) (q : Request) (s : State) :
  I s -> preserves I (call q s).
Proof. intros Hs. simpl. split; [exact Hs|]. intros [e|v] s' Hs'; exact Hs'. Qed.

(** Unfolding the operations of the monad. *)
Ltac mstep :=
  cbn [bind bindR catchR try_catch ret throw gets modify call run
       readRow option_ always preserves result final trace suspends].

(** ** The tag filter *)

Lemma filterByTags_tagIn (sd : SubscriptionData) (msgList : list Message) :
  Forall (fun t => truthy t = true) (SubscriptionData.tagsSet sd) ->
  SubscriptionData.tagsSet sd <> [] ->
  SubscriptionData.classFilterMode sd = false ->
  filterByTags sd msgList = List.filter (tagIn (SubscriptionData.tagsSet sd)) msgList.
Proof.
  intros Hall Hne Hcf. unfold filterByTags. rewrite Hcf.
  destruct (SubscriptionData.tagsSet sd) eqn:E; [congruence|]. simpl.
  apply filter_ext. intros msg. rewrite <- E in *. apply tagMatches_tagIn, Hall.
Qed.

Lemma filterByTags_member (sd : SubscriptionData) (msgList : list Message) (msg : Message) :
  SubscriptionData.tagsSet sd <> [] ->
  SubscriptionData.classFilterMode sd = false ->
  In msg (filterByTags sd msgList) ->
  exists t, Message.tags msg = Some t /\ t ∈ SubscriptionData.tagsSet sd.
Proof.
  intros Hne Hcf. unfold filterByTags. rewrite Hcf.
  destruct (SubscriptionData.tagsSet sd) eqn:E; [congruence|]. simpl. rewrite <- E.
  intros Hin. apply filter_In in Hin as [_ Hm]. unfold tagMatches in Hm.
  destruct (Message.tags msg) as [t|]; [|discriminate].
  exists t. split; [reflexivity|].
  apply andb_prop in Hm as [_ Hm]. rewrite indexOf_nonneg in Hm.
  apply bool_decide_eq_true in Hm. exact Hm.
Qed.

(** The same, with the fields of an updated state read through the update. *)
Ltac msimpl :=
  cbn [bind bindR catchR try_catch ret throw gets modify call run
       readRow option_ always preserves result final trace suspends app
       messageModel
       State.inited State.options State.subscriptions State.processQueueTable
       State.pullFromWhichNodeTable State.heap State.next State.now
       State.update State.set_processQueueTable State.set_pullFromWhichNodeTable
       State.alloc].

(** Case analysis along the paths of a generator. *)
Ltac mcases :=
  repeat (mstep;
          match goal with
          | |- _ => exact I
          | |- _ /\ _ => split
          | |- forall _, _ => intro
          | |- context [match ?x with inl _ => _ | inr _ => _ end] => destruct x
          | |- context [match ?x with Some _ => _ | None => _ end] => destruct x eqn:?
          | |- context [if ?b then _ else _] => destruct b eqn:?
          end).

Lemma removeProcessQueue_deliversOnly tagsSet mq s :
  always (deliversOnly tagsSet) (removeProcessQueue mq s).
Proof. unfold removeProcessQueue, removeUnnecessaryMessageQueue. mcases. Qed.

Lemma handlePullResult_deliversOnly mq l sd pr s :
  SubscriptionData.tagsSet sd <> [] ->
  SubscriptionData.classFilterMode sd = false ->
  always (deliversOnly (SubscriptionData.tagsSet sd)) (handlePullResult mq l sd pr s).
Proof.
  intros Hne Hcf. unfold handlePullResult, updatePullFromWhichNode. mstep.
  destruct (PullResult.pullStatus pr).
  - pose proof (fun msg => filterByTags_member sd (PullResult.msgFoundList pr) msg Hne Hcf) as Hm.
    destruct (filterByTags sd (PullResult.msgFoundList pr)) as [|first rest]; mstep; [exact I|].
    unfold deliver. mstep. split; [exact Hm|]. mcases.
  - unfold correctTagsOffset. mcases.
  - unfold correctTagsOffset. mcases.
  - unfold dropProcessQueue. mstep. split; [exact I|]. intros x s1.
    apply always_bindR; [|intros; exact I].
    destruct x; mstep; [exact I|]. split; [exact I|]. intros x s2.
    destruct x; mstep; [exact I|]. split; [exact I|]. intros x s3.
    destruct x; mstep; [exact I|]. apply removeProcessQueue_deliversOnly.
Qed.

Lemma pullKernelImpl_deliversOnly tagsSet mq e v o c s :
  always (deliversOnly tagsSet) (pullKernelImpl mq e v o c s).
Proof.
  unfold pullKernelImpl, findBrokerAddress, recalculatePullFromWhichNode. mcases.
Qed.

Lemma executePullRequestImmediately_deliversOnly mq sd s :
  map_get (MessageQueue.topic mq) (State.subscriptions s) = Some sd ->
  SubscriptionData.tagsSet sd <> [] ->
  SubscriptionData.classFilterMode sd = false ->
  always (deliversOnly (SubscriptionData.tagsSet sd)) (executePullRequestImmediately mq s).
Proof.
  intros Hsd Hne Hcf. unfold executePullRequestImmediately. mstep.
  destruct (map_get (key mq) (State.processQueueTable s)) as [l|]; mstep; [|exact I].
  destruct (ProcessQueue.droped _); mstep; [exact I|].
  cbn [State.update State.subscriptions]. rewrite Hsd. mstep.
  assert (Hk : forall c s', always (deliversOnly (SubscriptionData.tagsSet sd))
    (bindR (pullKernelImpl mq
              (if Options.postSubscriptionWhenPull (State.options s)
               then Some (SubscriptionData.subString sd) else None)
              (SubscriptionData.subVersion sd) (PullRequest.nextOffset (State.heap s' l)) c s')
           (fun pullResult => handlePullResult mq l sd pullResult))).
  { intros c s'. apply always_bindR; [apply pullKernelImpl_deliversOnly|].
    intros pr s''. apply handlePullResult_deliversOnly; assumption. }
  destruct (bool_decide _); mstep.
  - split; [exact I|]. intros [e|offset] s'; mstep; [exact I|]. apply Hk.
  - apply Hk.
Qed.

Lemma run_bindR {A B} (env : Env) (r : Res A) (f : A -> M B) (tr : list Request) :
  run env (bindR r f) tr =
  let out := run env r tr in
  match result out with
  | inr a => run env (f a (final out)) (trace out)
  | inl e => mkOutcome (inl e) (final out) (trace out)
  end.
Proof.
  revert tr; induction r as [a s|e s|q s k IH]; intros tr; simpl; try reflexivity.
  apply IH.
Qed.

Lemma run_bind {A B} (env : Env) (m : M A) (f : A -> M B) (s : State) (tr : list Request) :
  run env (bind m f s) tr =
  let out := run env (m s) tr in
  match result out with
  | inr a => run env (f a (final out)) (trace out)
  | inl e => mkOutcome (inl e) (final out) (trace out)
  end.
Proof. apply run_bindR. Qed.

(** ** The FOUND branch *)

(** What a FOUND reply leads to: nothing when the filter leaves no message;
    else the batch is emitted, and [updateOffset] follows exactly when
    [done] is called before the timer of 3000 ms fires. *)
Lemma handlePullResult_found env mq l sd pr s tr :
  PullResult.pullStatus pr = FOUND ->
  let msgList := filterByTags sd (PullResult.msgFoundList pr) in
  let out := run env (handlePullResult mq l sd pr s) tr in
  match msgList with
  | [] => trace out = tr /\ result out = inr tt
  | first :: _ =>
      let update :=
        UpdateOffset mq
          (numberAdd (toNumber (Message.queueOffset (List.last msgList first))) 1) false in
      match answer env (EmitMessage msgList) tr with
      | inr (Some t) =>
          if t <? 3000 then trace out = tr ++ [EmitMessage msgList; update]
          else trace out = tr ++ [EmitMessage msgList] /\ exists e, result out = inl e
      | _ => trace out = tr ++ [EmitMessage msgList] /\ exists e, result out = inl e
      end
  end.
Proof.
  intros Hst. cbv zeta. unfold handlePullResult, updatePullFromWhichNode. mstep.
  rewrite Hst.
  destruct (filterByTags sd (PullResult.msgFoundList pr)) as [|first rest]; mstep.
  - split; reflexivity.
  - unfold deliver. mstep.
    destruct (answer env (EmitMessage (first :: rest)) tr) as [e|[t|]]; mstep.
    + split; [reflexivity | eauto].
    + destruct (t <? 3000); mstep.
      * destruct (answer env (UpdateOffset _ _ _) _); mstep;
          rewrite <- app_assoc; reflexivity.
      * split; [reflexivity | eauto].
    + split; [reflexivity | eauto].
Qed.

(** C8.  With a subscription whose [tagsSet] is not empty and whose
    class-filter mode is off, every message of every batch that a round of
    the worker hands to the listeners carries a tag of [tagsSet]; the
    batch emitted for a FOUND reply is exactly the list of the fetched
    messages whose [tags] is a member of [tagsSet]; and that list is
    emitted whenever it is not empty, whatever the listeners and the other
    calls answer, while nothing is emitted, and no call made, when it is
    empty.  The subscriptions of a consumer are the values of
    [buildSubscriptionData]. *)
Theorem tag_filter_correct (env : Env) (now : Z) (consumerGroup : string)
    (subString : option string) (mq : MessageQueue) (sd : SubscriptionData) (s : State) :
  buildSubscriptionData now consumerGroup (MessageQueue.topic mq) subString = inr sd ->
  map_get (MessageQueue.topic mq) (State.subscriptions s) = Some sd ->
  SubscriptionData.tagsSet sd <> [] ->
  SubscriptionData.classFilterMode sd = false ->
  (forall batch msg,
     In (EmitMessage batch) (trace (run env (executePullRequestImmediately mq s) [])) ->
     In msg batch ->
     exists t, Message.tags msg = Some t /\ t ∈ SubscriptionData.tagsSet sd) /\
  (forall l pr s' batch,
     PullResult.pullStatus pr = FOUND ->
     In (EmitMessage batch) (trace (run env (handlePullResult mq l sd pr s') [])) ->
     batch = List.filter (tagIn (SubscriptionData.tagsSet sd)) (PullResult.msgFoundList pr)) /\
  (forall l pr s' tr,
     PullResult.pullStatus pr = FOUND ->
     let kept :=
       List.filter (tagIn (SubscriptionData.tagsSet sd)) (PullResult.msgFoundList pr) in
     let out := run env (handlePullResult mq l sd pr s') tr in
     (kept <> [] -> In (EmitMessage kept) (trace out)) /\
     (kept = [] -> trace out = tr)).
Proof.
  intros Hbuild Hsd Hne Hcf. split; [|split].
  - intros batch msg Hin Hmsg.
    assert (Hall : Forall (deliversOnly (SubscriptionData.tagsSet sd))
                     (trace (run env (executePullRequestImmediately mq s) []))).
    { apply always_run; [|constructor].
      apply executePullRequestImmediately_deliversOnly; assumption. }
    rewrite Forall_forall in Hall.
    apply (Hall (EmitMessage batch)); [apply list_elem_of_In, Hin | exact Hmsg].
  - intros l pr s' batch Hst Hin.
    rewrite <- (filterByTags_tagIn sd (PullResult.msgFoundList pr)
                  (buildSubscriptionData_tags_truthy _ _ _ _ Hbuild) Hne Hcf).
    pose proof (@handlePullResult_found env mq l sd pr s' [] Hst) as H. cbv zeta in H.
    destruct (filterByTags sd (PullResult.msgFoundList pr)) as [|first rest] eqn:E.
    + destruct H as [H _]. rewrite H in Hin. destruct Hin.
    + assert (Hsub : incl (trace (run env (handlePullResult mq l sd pr s') []))
                [EmitMessage (first :: rest);
                 UpdateOffset mq
                   (numberAdd (toNumber (Message.queueOffset
                                           (List.last (first :: rest) first))) 1)
                   false]).
      { destruct (answer env (EmitMessage (first :: rest)) []) as [e|[t|]].
        - destruct H as [-> _]. intros q [<-|[]]. left; reflexivity.
        - destruct (t <? 3000).
          + rewrite H. apply incl_refl.
          + destruct H as [-> _]. intros q [<-|[]]. left; reflexivity.
        - destruct H as [-> _]. intros q [<-|[]]. left; reflexivity. }
      apply Hsub in Hin. destruct Hin as [Heq|[Heq|[]]]; [|discriminate].
      injection Heq as <-. reflexivity.
  - intros l pr s' tr Hst. cbv zeta.
    rewrite <- (filterByTags_tagIn sd (PullResult.msgFoundList pr)
                  (buildSubscriptionData_tags_truthy _ _ _ _ Hbuild) Hne Hcf).
    pose proof (@handlePullResult_found env mq l sd pr s' tr Hst) as H. cbv zeta in H.
    destruct (filterByTags sd (PullResult.msgFoundList pr)) as [|first rest] eqn:E.
    + split; [congruence | intros _; apply H].
    + split; [intros _ | discriminate].
      assert (Hpre : exists more, trace (run env (handlePullResult mq l sd pr s') tr) =
                                  tr ++ EmitMessage (first :: rest) :: more).
      { destruct (answer env (EmitMessage (first :: rest)) tr) as [e|[t|]].
        - destruct H as [-> _]. eauto.
        - destruct (t <? 3000); [rewrite H; eauto | destruct H as [-> _]; eauto].
        - destruct H as [-> _]. eauto. }
      destruct Hpre as [more ->]. apply in_or_app. right. left. reflexivity.
Qed.

(** Below 2^53 the integers are doubles, and so is their successor. *)
Lemma toNumber_safe (z : Z) : Z.abs z <= 2 ^ 53 -> toNumber z = z.
Proof.
  intros Hz. destruct (Z.eq_dec (Z.abs z) (2 ^ 53)) as [E|E].
  - destruct (Z.abs_eq_or_opp z) as [H|H]; rewrite H in E.
    + rewrite E. vm_compute. reflexivity.
    + replace z with (- 2 ^ 53) by lia. vm_compute. reflexivity.
  - unfold toNumber. cbv zeta.
    assert (Hlog : Z.log2 (Z.abs z) < 53).
    { destruct (Z.eq_dec (Z.abs z) 0) as [E0|E0]; [rewrite E0; reflexivity|].
      apply Z.log2_lt_pow2; lia. }
    destruct (Z.leb_spec (Z.log2 (Z.abs z) - 52) 0); [reflexivity | lia].
Qed.

Lemma numberAdd_safe (z : Z) : Z.abs z < 2 ^ 53 -> numberAdd (toNumber z) 1 = z + 1.
Proof.
  intros Hz. unfold numberAdd. rewrite (toNumber_safe z) by lia. apply toNumber_safe. lia.
Qed.

(** C5.  For a FOUND reply whose filtered batch is not empty: when [done]
    is called before the 3000 ms of the timer, the batch is followed by one
    [updateOffset] for the queue, and its offset is [lastMsgOffset + 1],
    with the [queueOffset] of the last message of the batch, when that
    offset is a safe integer; when [done] is not called in time, the round
    ends with an exception and [updateOffset] is not called. *)
Theorem found_updates_offset_on_ack (env : Env) (mq : MessageQueue) (l : loc)
    (sd : SubscriptionData) (pr : PullResult) (s : State) (tr : list Request)
    (first : Message) (rest : list Message) :
  PullResult.pullStatus pr = FOUND ->
  filterByTags sd (PullResult.msgFoundList pr) = first :: rest ->
  let batch := first :: rest in
  let lastMsgOffset := Message.queueOffset (List.last batch first) in
  let out := run env (handlePullResult mq l sd pr s) tr in
  (forall t, answer env (EmitMessage batch) tr = inr (Some t) -> t < 3000 ->
     exists offset,
       trace out = tr ++ [EmitMessage batch; UpdateOffset mq offset false] /\
       (Z.abs lastMsgOffset < 2 ^ 53 -> offset = lastMsgOffset + 1)) /\
  (answer env (EmitMessage batch) tr = inr None \/
   (exists t, answer env (EmitMessage batch) tr = inr (Some t) /\ 3000 <= t) ->
     (exists e, result out = inl e) /\ trace out = tr ++ [EmitMessage batch]).
Proof.
  intros Hst Hbatch. cbv zeta.
  pose proof (@handlePullResult_found env mq l sd pr s tr Hst) as H. cbv zeta in H.
  rewrite Hbatch in H. split.
  - intros t Ht Hlt. rewrite Ht in H.
    apply Z.ltb_lt in Hlt. rewrite Hlt in H.
    eexists. split; [exact H | apply numberAdd_safe].
  - intros [Hn | [t [Ht Hge]]].
    + rewrite Hn in H. tauto.
    + rewrite Ht in H. apply Z.ltb_ge in Hge. rewrite Hge in H. tauto.
Qed.

(** ** The header of a pull *)

Lemma always_impl {A} (P Q : Request -> Prop) (r : Res A) :
  (forall q, P q -> Q q) -> always P r -> always Q r.
Proof.
  intros HPQ. induction r as [a s|e s|q s k IH]; simpl; auto.
  intros [Hq Hk]. split; auto.
Qed.

Lemma buildSysFlag_commit (commitOffset : bool) (subscription : bool) :
  Z.testbit (PullSysFlag.buildSysFlag commitOffset true subscription false) 0 = commitOffset /\
  Z.testbit (PullSysFlag.clearCommitOffsetFlag
               (PullSysFlag.buildSysFlag commitOffset true subscription false)) 0 = false.
Proof. destruct commitOffset, subscription; split; reflexivity. Qed.

Lemma pullKernelImpl_pullsWith mq e v o c s :
  always (pullsWith c) (pullKernelImpl mq e v o c s).
Proof.
  assert (Hflag : forall slave : bool,
    Z.testbit (if slave
               then PullSysFlag.clearCommitOffsetFlag
                      (PullSysFlag.buildSysFlag (0 <? c) true (hasExpression e) false)
               else PullSysFlag.buildSysFlag (0 <? c) true (hasExpression e) false) 0 = true ->
    0 < c).
  { intros slave. destruct (buildSysFlag_commit (0 <? c) (hasExpression e)) as [H1 H2].
    destruct slave; [rewrite H2; discriminate | rewrite H1; apply Z.ltb_lt]. }
  unfold pullKernelImpl, findBrokerAddress, recalculatePullFromWhichNode.
  mcases; cbn [pullsWith RequestHeader.commitOffset RequestHeader.sysFlag];
    (split; [reflexivity|]); first [apply (Hflag true) | apply (Hflag false)].
Qed.

Lemma handlePullResult_no_pull mq l sd pr s :
  always (fun q => isPullMessage q = false) (handlePullResult mq l sd pr s).
Proof.
  unfold handlePullResult, updatePullFromWhichNode, correctTagsOffset, deliver,
    dropProcessQueue, removeProcessQueue, removeUnnecessaryMessageQueue.
  mstep. destruct (PullResult.pullStatus pr); mstep.
  - destruct (filterByTags sd (PullResult.msgFoundList pr)); mcases; reflexivity.
  - mcases; reflexivity.
  - mcases; reflexivity.
  - mcases; reflexivity.
Qed.

Lemma pull_and_handle_pullsWith mq l sd e v o c s :
  always (pullsWith c)
    (bindR (pullKernelImpl mq e v o c s) (fun pullResult => handlePullResult mq l sd pullResult)).
Proof.
  apply always_bindR; [apply pullKernelImpl_pullsWith|].
  intros pr s'. eapply always_impl; [|apply handlePullResult_no_pull].
  intros [] Hq; try exact I; discriminate.
Qed.

Lemma trace_pullsWith env c {A} (r : Res A) tr addr hdr timeout :
  always (pullsWith c) r ->
  Forall (fun q => isPullMessage q = false) tr ->
  In (PullMessage addr hdr timeout) (trace (run env r tr)) ->
  RequestHeader.commitOffset hdr = c /\
  (Z.testbit (RequestHeader.sysFlag hdr) 0 = true -> 0 < c).
Proof.
  intros Hr Htr Hin.
  assert (Hall : Forall (pullsWith c) (trace (run env r tr))).
  { apply always_run; [exact Hr|].
    eapply Forall_impl; [exact Htr|]. intros [] Hq; try exact I; discriminate. }
  rewrite Forall_forall in Hall.
  apply (Hall (PullMessage addr hdr timeout)), list_elem_of_In, Hin.
Qed.

(** C6 (as amended).  In cluster mode the [commitOffset] of the header of
    a pull is the value that [readOffset(mq, READ_FROM_MEMORY)] gave,
    whatever its sign: the test of the source takes any number but zero,
    so the -1 of an absent offset is sent as -1.  In broadcast mode it is 0.
    The COMMIT_OFFSET bit of [sysFlag] is set only with a positive
    [commitOffset]. *)
Theorem pull_commitOffset (env : Env) (mq : MessageQueue) (s : State)
    (brokerAddr : string) (requestHeader : RequestHeader) (timeout : Z) :
  In (PullMessage brokerAddr requestHeader timeout)
     (trace (run env (executePullRequestImmediately mq s) [])) ->
  (if Options.isBroadcast (State.options s) then
     RequestHeader.commitOffset requestHeader = 0
   else
     exists l offset,
       map_get (key mq) (State.processQueueTable s) = Some l /\
       answer env (ReadOffset (PullRequest.messageQueue (State.heap s l)) READ_FROM_MEMORY) []
         = inr offset /\
       RequestHeader.commitOffset requestHeader = offset) /\
  (Z.testbit (RequestHeader.sysFlag requestHeader) 0 = true ->
   0 < RequestHeader.commitOffset requestHeader).
Proof.
  unfold executePullRequestImmediately. msimpl.
  destruct (map_get (key mq) (State.processQueueTable s)) as [l|] eqn:El; msimpl;
    [|intros []].
  destruct (ProcessQueue.droped _); msimpl; [intros []|].
  destruct (map_get (MessageQueue.topic mq) (State.subscriptions s)) as [sd|]; msimpl.
  2:{ destruct (answer env (Sleep _) []); msimpl; intros [H|[]]; discriminate H. }
  unfold messageModel. msimpl.
  destruct (Options.isBroadcast (State.options s)) eqn:Eb.
  - change (bool_decide (CLUSTERING = BROADCASTING)) with false. msimpl. intros Hin.
    apply trace_pullsWith with (c := 0) in Hin;
      [|apply pull_and_handle_pullsWith | constructor].
    destruct Hin as [Hc Hf]. split; [exact Hc|]. rewrite Hc. exact Hf.
  - change (bool_decide (CLUSTERING = CLUSTERING)) with true. msimpl.
    rewrite bool_decide_eq_true_2 by reflexivity.
    destruct (answer env (ReadOffset _ _) []) as [e|offset] eqn:Ea; msimpl.
    + intros [H|[]]; discriminate H.
    + intros Hin.
      apply trace_pullsWith with (c := if truthyNumber offset then offset else 0) in Hin;
        [|apply pull_and_handle_pullsWith | repeat constructor].
      assert (Hoff : (if truthyNumber offset then offset else 0) = offset).
      { unfold truthyNumber. destruct (Z.eqb_spec offset 0); simpl; congruence. }
      rewrite Hoff in Hin. destruct Hin as [Hc Hf]. split.
      * exists l, offset. repeat split; assumption.
      * rewrite Hc. exact Hf.
Qed.

(** ** A consumer at work *)

(** A FOUND reply with an acknowledged batch: the message of the foreign
    tag is left out, and the offset after the last delivered message is
    written back. *)
Example found_round :
  trace (run (quiet (Scenario.answers 5 Scenario.found (Some 10)))
             (executePullRequestImmediately Scenario.mq (Scenario.state false 0 1000)) []) =
  [ ReadOffset Scenario.mq READ_FROM_MEMORY;
    FindBrokerAddressInSubscribe "broker-a" 0 false;
    PullMessage "10.0.0.1:10911" (Scenario.header 5 7) 30000;
    EmitMessage [Scenario.msg "TagA" 5; Scenario.msg "TagB" 7];
    UpdateOffset Scenario.mq 8 false ].
Proof. vm_compute. reflexivity. Qed.

(** The first pull of a queue: one message at offset 0, acknowledged; the
    store observes [updateOffset(mq, 1)]. *)
Example first_message_round :
  let pr := PullResult.mk FOUND 1 0 [Scenario.msg "TagA" 0] in
  trace (run (quiet (Scenario.answers 0 pr (Some 0)))
             (handlePullResult Scenario.mq 0%nat Scenario.sd pr (Scenario.state false 0 1000))
             []) =
  [ EmitMessage [Scenario.msg "TagA" 0]; UpdateOffset Scenario.mq 1 false ].
Proof. vm_compute. reflexivity. Qed.

(** A reply without a new message: the next offset is written back, to be
    taken only if it is greater. *)
Example no_new_message_round :
  let pr := PullResult.mk NO_NEW_MSG 9 0 [] in
  trace (run (quiet (Scenario.answers 0 pr None))
             (handlePullResult Scenario.mq 0%nat Scenario.sd pr (Scenario.state false 0 1000))
             []) =
  [ UpdateOffset Scenario.mq 9 true ].
Proof. vm_compute. reflexivity. Qed.

Lemma tag_filter_correct_witness :
  In (EmitMessage [Scenario.msg "TagA" 5; Scenario.msg "TagB" 7])
     (trace (run (quiet (Scenario.answers 5 Scenario.found (Some 10)))
               (handlePullResult Scenario.mq 0%nat Scenario.sd Scenario.found
                  (Scenario.state false 0 1000)) [])) /\
  (forall batch msg,
     In (EmitMessage batch)
        (trace (run (quiet (Scenario.answers 5 Scenario.found (Some 10)))
                  (executePullRequestImmediately Scenario.mq (Scenario.state false 0 1000))
                  [])) ->
     In msg batch ->
     exists t, Message.tags msg = Some t /\ t ∈ ["TagA"; "TagB"]).
Proof.
  destruct (@tag_filter_correct (quiet (Scenario.answers 5 Scenario.found (Some 10)))
              7 "group" (Some "TagA||TagB") Scenario.mq Scenario.sd
              (Scenario.state false 0 1000)
              eq_refl eq_refl ltac:(discriminate) eq_refl) as (Hin & _ & Hout).
  split; [|exact Hin].
  apply (proj1 (Hout 0%nat Scenario.found (Scenario.state false 0 1000) [] eq_refl)).
  vm_compute. discriminate.
Defined.

Lemma found_updates_offset_on_ack_witness :
  exists offset,
    trace (run (quiet (Scenario.answers 5 Scenario.found (Some 10)))
               (handlePullResult Scenario.mq 0%nat Scenario.sd Scenario.found
                  (Scenario.state false 0 1000)) []) =
    [] ++ [ EmitMessage [Scenario.msg "TagA" 5; Scenario.msg "TagB" 7];
            UpdateOffset Scenario.mq offset false ] /\
    (Z.abs 7 < 2 ^ 53 -> offset = 7 + 1).
Proof.
  apply (proj1 (@found_updates_offset_on_ack
                  (quiet (Scenario.answers 5 Scenario.found (Some 10)))
                  Scenario.mq 0%nat Scenario.sd Scenario.found (Scenario.state false 0 1000) []
                  (Scenario.msg "TagA" 5) [Scenario.msg "TagB" 7] eq_refl eq_refl) 10).
  - reflexivity.
  - lia.
Defined.

(** C5, as stated, fails beyond the safe integers: the sum is one of
    doubles, and for a batch that ends at offset 2^53 [updateOffset]
    receives 2^53 again, not 2^53 + 1. *)
Lemma offset_beyond_safe_integers_not_advanced :
  let pr := PullResult.mk FOUND 9007199254740993 0 [Scenario.msg "TagA" 9007199254740992] in
  trace (run (quiet (Scenario.answers 5 pr (Some 10)))
             (handlePullResult Scenario.mq 0%nat Scenario.sd pr
                (Scenario.state false 0 1000)) []) =
  [ EmitMessage [Scenario.msg "TagA" 9007199254740992];
    UpdateOffset Scenario.mq 9007199254740992 false ] /\
  9007199254740992 = 2 ^ 53 /\
  9007199254740992 <> 9007199254740992 + 1.
Proof.
  cbv zeta. split; [vm_compute; reflexivity|]. split; [reflexivity | lia].
Qed.

Lemma pull_commitOffset_witness :
  (exists l offset,
     map_get (key Scenario.mq) (State.processQueueTable (Scenario.state false 0 1000)) = Some l /\
     answer (quiet (Scenario.answers 5 Scenario.found (Some 10)))
       (ReadOffset (PullRequest.messageQueue (State.heap (Scenario.state false 0 1000) l))
          READ_FROM_MEMORY) [] = inr offset /\
     RequestHeader.commitOffset (Scenario.header 5 7) = offset) /\
  (Z.testbit (RequestHeader.sysFlag (Scenario.header 5 7)) 0 = true ->
   0 < RequestHeader.commitOffset (Scenario.header 5 7)).
Proof.
  apply (@pull_commitOffset (quiet (Scenario.answers 5 Scenario.found (Some 10)))
           Scenario.mq (Scenario.state false 0 1000)
           "10.0.0.1:10911" (Scenario.header 5 7) 30000).
  vm_compute. right; right; left. reflexivity.
Defined.

(** C6, as stated, fails: when [readOffset] reports -1 for an absent
    offset, the header of the pull carries -1, not 0. *)
Lemma pull_commitOffset_absent :
  answer (quiet (Scenario.answers (-1) Scenario.found (Some 10)))
    (ReadOffset Scenario.mq READ_FROM_MEMORY) [] = inr (-1) /\
  Options.isBroadcast (State.options (Scenario.state false 0 1000)) = false /\
  In (PullMessage "10.0.0.1:10911" (Scenario.header (-1) 6) 30000)
     (trace (run (quiet (Scenario.answers (-1) Scenario.found (Some 10)))
                 (executePullRequestImmediately Scenario.mq (Scenario.state false 0 1000)) [])) /\
  RequestHeader.commitOffset (Scenario.header (-1) 6) <> 0.
Proof.
  split; [reflexivity|]. split; [reflexivity|]. split.
  - vm_compute. right; right; left. reflexivity.
  - discriminate.
Qed.

(** ** Where to pull from *)

Lemma append_cons (x : ascii) (a b : string) : String x a +:+ b = String x (a +:+ b).
Proof. reflexivity. Qed.

(** A retry topic is a topic that begins with [%RETRY%]. *)
Lemma prefix_append (p t : string) :
  String.prefix p t = true <-> exists rest, t = p +:+ rest.
Proof.
  revert t; induction p as [|c p IH]; intros t.
  - split; [intros _; exists t; reflexivity | intros _; destruct t; reflexivity].
  - destruct t as [|d t]; simpl.
    + split; [discriminate | intros [rest H]; discriminate H].
    + destruct (Ascii.ascii_dec c d) as [->|Hne].
      * rewrite IH. split; intros [rest H]; exists rest.
        -- rewrite H. reflexivity.
        -- rewrite append_cons in H. injection H as ->. reflexivity.
      * split; [discriminate|]. intros [rest H]. rewrite append_cons in H.
        injection H as H _. congruence.
Qed.

Lemma isRetryTopic_spec (topic : string) :
  (isRetryTopic topic = true <-> exists rest, topic = "%RETRY%" +:+ rest) /\
  (isRetryTopic topic = false <-> forall rest, topic <> "%RETRY%" +:+ rest).
Proof.
  unfold isRetryTopic, MixAll.RETRY_GROUP_TOPIC_PREFIX.
  pose proof (prefix_append "%RETRY%" topic) as H. split; [exact H|].
  destruct (String.prefix "%RETRY%" topic).
  - split; [discriminate|]. intros Hno. destruct (proj1 H eq_refl) as [rest Hr].
    destruct (Hno rest Hr).
  - split; [|reflexivity]. intros _ rest Hr.
    assert (false = true) by (apply H; eauto). discriminate.
Qed.

(** C4.  [computePullFromWhere] returns the stored offset when
    [readOffset(mq, READ_FROM_STORE)] is not negative.  When it is -1:
    under CONSUME_FROM_LAST_OFFSET and the three policies that share its
    case, 0 for a topic that begins with [%RETRY%] and
    [mqClient.maxOffset(mq)] for another; under CONSUME_FROM_FIRST_OFFSET,
    0; under CONSUME_FROM_TIMESTAMP, [maxOffset] for a topic that begins
    with [%RETRY%] and [searchOffset(mq, timestamp)], with the configured
    timestamp, for another.  The method never throws: it returns -1 when
    a call in it does. *)
Theorem computePullFromWhere_spec (env : Env) (mq : MessageQueue) (s : State)
    (tr : list Request) :
  (forall q h s', State.options (meanwhile env q h s') = State.options s') ->
  let out := run env (computePullFromWhere mq s) tr in
  let policy := Options.consumeFromWhere (State.options s) in
  let topic := MessageQueue.topic mq in
  let read := ReadOffset mq READ_FROM_STORE in
  let parse := ParseDate (Options.consumeTimestamp (State.options s)) in
  let maxOffset := orMinus1 (answer env (MaxOffset mq) (tr ++ [read])) in
  let searchOffset :=
    match answer env parse (tr ++ [read]) with
    | inr timestamp =>
        orMinus1 (answer env (SearchOffset mq timestamp) ((tr ++ [read]) ++ [parse]))
    | inl _ => -1
    end in
  (exists offset, result out = inr offset) /\
  (forall e, answer env read tr = inl e -> result out = inr (-1)) /\
  (forall lastOffset, answer env read tr = inr lastOffset ->
     (0 <= lastOffset -> result out = inr lastOffset) /\
     (lastOffset = -1 ->
      match policy with
      | CONSUME_FROM_FIRST_OFFSET => result out = inr 0
      | CONSUME_FROM_TIMESTAMP =>
          ((exists rest, topic = "%RETRY%" +:+ rest) -> result out = inr maxOffset) /\
          ((forall rest, topic <> "%RETRY%" +:+ rest) -> result out = inr searchOffset)
      | _ =>
          ((exists rest, topic = "%RETRY%" +:+ rest) -> result out = inr 0) /\
          ((forall rest, topic <> "%RETRY%" +:+ rest) -> result out = inr maxOffset)
      end)).
Proof.
  intros Hopt. cbv zeta.
  destruct (isRetryTopic_spec (MessageQueue.topic mq)) as [Hretry Hplain].
  unfold computePullFromWhere. msimpl.
  destruct (answer env (ReadOffset mq READ_FROM_STORE) tr) as [e|lastOffset]; msimpl.
  { split; [eauto|]. split; [reflexivity | intros ? [=]]. }
  rewrite !Hopt.
  assert (Hneg : (0 <=? -1) = false) by reflexivity.
  assert (Hm1 : (-1 =? -1) = true) by reflexivity.
  split; [|split; [intros ? [=]|]].
  - destruct (Options.consumeFromWhere (State.options s));
      destruct (0 <=? lastOffset); msimpl; eauto;
      destruct (lastOffset =? -1); msimpl; eauto;
      destruct (isRetryTopic (MessageQueue.topic mq)); msimpl; eauto;
      repeat (rewrite ?Hopt;
              match goal with
              | |- context [answer env ?q ?h] => destruct (answer env q h); msimpl
              end); eauto.
  - intros ? [= <-]. split.
    + intros Hle. apply Z.leb_le in Hle.
      destruct (Options.consumeFromWhere (State.options s)); rewrite Hle; reflexivity.
    + intros ->.
      destruct (Options.consumeFromWhere (State.options s)); rewrite ?Hneg, ?Hm1; msimpl;
        try reflexivity;
        destruct (isRetryTopic (MessageQueue.topic mq)) eqn:Eretry;
        (split; intros Hr;
         [ try (apply Hretry in Hr; discriminate Hr)
         | try (apply Hplain in Hr; discriminate Hr) ]);
        msimpl; try reflexivity;
        repeat (rewrite ?Hopt;
                match goal with
                | |- context [run _ _ _] =>
                    match goal with
                    | |- context [answer env ?q ?h] => destruct (answer env q h); msimpl
                    end
                end); reflexivity.
Qed.

Lemma computePullFromWhere_spec_witness :
  result (run (quiet (Scenario.answers (-1) Scenario.found None))
              (computePullFromWhere (MessageQueue.mk "%RETRY%group" "broker-a" 0)
                 (Scenario.state false 0 1000)) []) = inr 0 /\
  result (run (quiet (Scenario.answers (-1) Scenario.found None))
              (computePullFromWhere Scenario.mq (Scenario.state false 0 1000)) []) = inr 42.
Proof.
  split.
  - apply (proj1 (proj2 (proj2 (proj2 (@computePullFromWhere_spec
                                         (quiet (Scenario.answers (-1) Scenario.found None))
                                         (MessageQueue.mk "%RETRY%group" "broker-a" 0)
                                         (Scenario.state false 0 1000) []
                                         (fun _ _ _ => eq_refl)))
                           (-1) eq_refl) eq_refl)).
    exists "group". reflexivity.
  - apply (proj2 (proj2 (proj2 (proj2 (@computePullFromWhere_spec
                                         (quiet (Scenario.answers (-1) Scenario.found None))
                                         Scenario.mq (Scenario.state false 0 1000) []
                                         (fun _ _ _ => eq_refl)))
                           (-1) eq_refl) eq_refl)).
    intros rest H. discriminate H.
Defined.

(** ** The loop of the worker *)

Lemma run_catchR {A} (env : Env) (r : Res A) (h : JsError -> M A) (tr : list Request) :
  run env (catchR r h) tr =
  let out := run env r tr in
  match result out with
  | inl e => run env (h e (final out)) (trace out)
  | inr a => out
  end.
Proof.
  revert tr; induction r as [a s|e s|q s k IH]; intros tr; simpl; try reflexivity.
  apply IH.
Qed.

(** A round of the loop does not throw, as [sleep] does not. *)
Lemma pullRound_returns (env : Env) mq s tr :
  (forall i h, answer env (Sleep i) h = inr tt) ->
  result (run env (pullRound mq s) tr) = inr tt.
Proof.
  intros Hsleep. unfold pullRound, try_catch. rewrite run_catchR. cbv zeta.
  destruct (result (run env _ tr)) as [e|[]] eqn:E; [|exact E].
  msimpl. destruct (State.inited _); msimpl; [|reflexivity].
  rewrite Hsleep. reflexivity.
Qed.

(** With the key in the table and the process queue dropped, the rounds
    do nothing but sleep, and the worker stays in the loop. *)
Lemma pullMessageQueue_dropped
    (ans : forall r : Request, list Request -> JsError + Reply r) mq s l fuel tr :
  (forall i h, ans (Sleep i) h = inr tt) ->
  map_get (key mq) (State.processQueueTable s) = Some l ->
  ProcessQueue.droped (PullRequest.processQueue (State.heap s l)) = true ->
  run (quiet ans) (pullMessageQueue fuel mq s) tr =
  mkOutcome (inr false) s (tr ++ repeat (Sleep (Options.pullInterval (State.options s))) fuel).
Proof.
  intros Hsleep Hl Hd. revert tr; induction fuel as [|fuel IH]; intros tr.
  - simpl. rewrite app_nil_r. reflexivity.
  - cbn [pullMessageQueue]. unfold map_has, pullRound, executePullRequestImmediately.
    do 4 (msimpl; rewrite ?Hl, ?Hd, ?Hsleep).
    change (bindR (Done tt s) (fun _ => pullMessageQueue fuel mq))
      with (pullMessageQueue fuel mq s).
    rewrite IH. rewrite <- app_assoc. reflexivity.
Qed.

(** C2 (as amended).  The loop of a worker is left exactly when the table
    no longer holds the key of its queue: without the key the worker
    leaves at once; with the key it goes through another round, whatever
    the flag of the process queue; and with the key and a dropped process
    queue the rounds only sleep, so that the worker is still in the loop
    after any number of them. *)
Theorem worker_loop_lifetime
    (ans : forall r : Request, list Request -> JsError + Reply r)
    (mq : MessageQueue) (s : State) (fuel : nat) (tr : list Request) :
  (forall i h, ans (Sleep i) h = inr tt) ->
  let env := quiet ans in
  (map_has (key mq) (State.processQueueTable s) = false ->
   run env (pullMessageQueue (S fuel) mq s) tr = mkOutcome (inr true) s tr) /\
  (map_has (key mq) (State.processQueueTable s) = true ->
   let round := run env (pullRound mq s) tr in
   run env (pullMessageQueue (S fuel) mq s) tr =
   run env (pullMessageQueue fuel mq (final round)) (trace round)) /\
  (forall l,
     map_get (key mq) (State.processQueueTable s) = Some l ->
     ProcessQueue.droped (PullRequest.processQueue (State.heap s l)) = true ->
     run env (pullMessageQueue fuel mq s) tr =
     mkOutcome (inr false) s
       (tr ++ repeat (Sleep (Options.pullInterval (State.options s))) fuel)).
Proof.
  intros Hsleep env. split; [|split].
  - intros Hhas. cbn [pullMessageQueue]. msimpl. rewrite Hhas. reflexivity.
  - intros Hhas. cbv zeta. cbn [pullMessageQueue]. msimpl. rewrite Hhas.
    rewrite run_bind. cbv zeta. rewrite pullRound_returns by exact Hsleep. reflexivity.
  - intros l Hl Hd. apply pullMessageQueue_dropped with (l := l); assumption.
Qed.

Lemma worker_loop_lifetime_witness :
  run (quiet (Scenario.answers 5 Scenario.found (Some 10)))
      (pullMessageQueue 2 Scenario.mq (Scenario.state true 0 1000)) [] =
  mkOutcome (inr false) (Scenario.state true 0 1000) ([] ++ repeat (Sleep 0) 2).
Proof.
  apply (proj2 (proj2 (@worker_loop_lifetime
                         (Scenario.answers 5 Scenario.found (Some 10))
                         Scenario.mq (Scenario.state true 0 1000) 2 []
                         (fun _ _ => eq_refl))) 0%nat).
  - reflexivity.
  - reflexivity.
Defined.

(** C2, as stated, fails: the process queue is dropped and the key is in
    the table; after three rounds the worker has not left the loop. *)
Lemma dropped_worker_stays_in_loop :
  map_get (key Scenario.mq) (State.processQueueTable (Scenario.state true 0 1000)) = Some 0%nat /\
  ProcessQueue.droped
    (PullRequest.processQueue (State.heap (Scenario.state true 0 1000) 0%nat)) = true /\
  result (run (quiet (Scenario.answers 5 Scenario.found (Some 10)))
              (pullMessageQueue 3 Scenario.mq (Scenario.state true 0 1000)) []) = inr false /\
  trace (run (quiet (Scenario.answers 5 Scenario.found (Some 10)))
             (pullMessageQueue 3 Scenario.mq (Scenario.state true 0 1000)) []) =
    [Sleep 0; Sleep 0; Sleep 0].
Proof.
  split; [vm_compute; reflexivity|]. split; [vm_compute; reflexivity|].
  split; vm_compute; reflexivity.
Qed.

(** ** An illegal offset *)

Lemma map_get_set {K V} `{EqDecision K} (k : K) (v : V) (m : list (K * V)) :
  map_get k (map_set k v m) = Some v.
Proof.
  induction m as [|[k' v'] m IH]; simpl.
  - rewrite bool_decide_eq_true_2 by reflexivity. reflexivity.
  - case_bool_decide as E; simpl.
    + rewrite bool_decide_eq_true_2 by reflexivity. reflexivity.
    + rewrite bool_decide_eq_false_2 by exact E. exact IH.
Qed.

(** Whatever the reply of the pull, a round that ends without an exception
    ends by putting the row back in the table. *)
Lemma handlePullResult_puts_row_back env mq l sd pr s tr :
  let out := run env (handlePullResult mq l sd pr s) tr in
  result out = inr tt ->
  map_get (key mq) (State.processQueueTable (final out)) = Some l.
Proof.
  cbv zeta. unfold handlePullResult, updatePullFromWhichNode. msimpl.
  rewrite run_bind. cbv zeta.
  destruct (result (run env _ tr)) as [e|[]]; msimpl; [discriminate|].
  intros _. apply map_get_set.
Qed.

(** C1, on the code.  The pull is answered OFFSET_ILLEGAL with
    [nextBeginOffset] 100: the process queue is dropped, the worker sleeps
    10 s, writes 100 back, persists it and removes the queue; then the
    last statement of the round puts the row back in the table.  The key
    is still there with a dropped process queue: the worker never leaves
    its loop, and a rebalance that assigns the queue again finds its key
    and adds nothing. *)
Theorem offset_illegal_row_put_back :
  let env := quiet (Scenario.answers 5 illegal None) in
  let out := run env (executePullRequestImmediately Scenario.mq (Scenario.state false 0 1000)) [] in
  result out = inr tt /\
  trace out =
    [ ReadOffset Scenario.mq READ_FROM_MEMORY;
      FindBrokerAddressInSubscribe "broker-a" 0 false;
      PullMessage "10.0.0.1:10911" (Scenario.header 5 7) 30000;
      Sleep 10000;
      UpdateOffset Scenario.mq 100 false;
      Persist Scenario.mq;
      Persist Scenario.mq;
      RemoveOffset Scenario.mq ] /\
  map_get (key Scenario.mq) (State.processQueueTable (final out)) = Some 0%nat /\
  ProcessQueue.droped (PullRequest.processQueue (State.heap (final out) 0%nat)) = true /\
  (forall fuel,
     result (run env (pullMessageQueue fuel Scenario.mq (final out)) []) = inr false) /\
  (let again :=
     run env (updateProcessQueueTableInRebalance "TopicTest" [Scenario.mq] (final out)) [] in
   result again = inr false /\ trace again = [] /\
   State.processQueueTable (final again) = State.processQueueTable (final out)).
Proof.
  cbv zeta. split; [vm_compute; reflexivity|]. split; [vm_compute; reflexivity|].
  split; [vm_compute; reflexivity|]. split; [vm_compute; reflexivity|]. split.
  - intros fuel. rewrite pullMessageQueue_dropped with (l := 0%nat).
    + reflexivity.
    + reflexivity.
    + vm_compute; reflexivity.
    + vm_compute; reflexivity.
  - split; [vm_compute; reflexivity|]. split; vm_compute; reflexivity.
Qed.

(** ** The dropped flag *)

Section Keeps.
Variable I : State -> Prop.

Lemma keeps_ret {A} (a : A) : keeps I (ret a).
Proof. intros s Hs. exact Hs. Qed.

Lemma keeps_throw {A} (e : JsError) : keeps I (throw (A := A) e).
Proof. intros s Hs. exact Hs. Qed.

Lemma keeps_gets {A} (f : State -> A) : keeps I (gets f).
Proof. intros s Hs. exact Hs. Qed.

Lemma keeps_call (q : Request) : keeps I (call q).
Proof. intros s Hs. apply preserves_call, Hs. Qed.

Lemma keeps_modify (f : State -> State) :
  (forall s, I s -> I (f s)) -> keeps I (modify f).
Proof. intros Hf s Hs. apply Hf, Hs. Qed.

Lemma keeps_bind {A B} (m : M A) (f : A -> M B) :
  keeps I m -> (forall a, keeps I (f a)) -> keeps I (bind m f).
Proof.
  intros Hm Hf s Hs. apply preserves_bindR; [apply Hm, Hs|].
  intros a s' Hs'. apply Hf, Hs'.
Qed.

Lemma keeps_try_catch {A} (m : M A) (h : JsError -> M A) :
  keeps I m -> (forall e, keeps I (h e)) -> keeps I (try_catch m h).
Proof.
  intros Hm Hh s Hs. apply preserves_catchR; [apply Hm, Hs|].
  intros e s' Hs'. apply Hh, Hs'.
Qed.

Lemma keeps_for_of {A X} (l : list X) (body : A -> X -> M A) (acc : A) :
  (forall a x, keeps I (body a x)) -> keeps I (for_of l body acc).
Proof.
  intros Hb. revert acc; induction l as [|x l IH]; intros acc; simpl.
  - apply keeps_ret.
  - apply keeps_bind; [apply Hb | intros a; apply IH].
Qed.
End Keeps.

Lemma isDropped_update l l' f s :
  keepsFlag f -> isDropped l s -> isDropped l (State.update l' f s).
Proof.
  intros Hf [Hn Hd]. split; [exact Hn|]. cbn [State.update State.heap].
  case_bool_decide as E; [subst; apply Hf, Hd | exact Hd].
Qed.

Lemma isDropped_alloc l r s : isDropped l s -> isDropped l (State.alloc r s).
Proof.
  intros [Hn Hd]. split; cbn [State.alloc State.next State.heap]; [lia|].
  rewrite bool_decide_eq_false_2 by lia. exact Hd.
Qed.

Ltac keeps_step :=
  cbv beta zeta;
  lazymatch goal with
  | |- keeps _ (bind _ _) => apply keeps_bind; [|intro]
  | |- keeps _ (ret _) => apply keeps_ret
  | |- keeps _ (throw _) => apply keeps_throw
  | |- keeps _ (gets _) => apply keeps_gets
  | |- keeps ?I (call ?q) => exact (@keeps_call I q)
  | |- keeps _ (try_catch _ _) => apply keeps_try_catch; [|intro]
  | |- keeps _ (for_of _ _ _) => apply keeps_for_of; intros
  | |- keeps _ (modify _) =>
      apply keeps_modify; intros ? ?;
      first [ apply isDropped_update; [intros ? ?; solve [assumption | reflexivity] | assumption]
            | apply isDropped_alloc; assumption
            | assumption ]
  | |- keeps _ (match ?x with _ => _ end) => destruct x
  end.

Lemma removeProcessQueue_keeps l mq : keeps (isDropped l) (removeProcessQueue mq).
Proof.
  unfold removeProcessQueue, removeUnnecessaryMessageQueue. repeat keeps_step.
Qed.

Lemma handlePullResult_keeps l mq row sd pr :
  keeps (isDropped l) (handlePullResult mq row sd pr).
Proof.
  unfold handlePullResult, updatePullFromWhichNode, correctTagsOffset, deliver,
    dropProcessQueue, readRow.
  repeat (cbv beta zeta;
          lazymatch goal with
          | |- keeps _ (removeProcessQueue _) => apply removeProcessQueue_keeps
          | _ => keeps_step
          end).
Qed.

Lemma pullKernelImpl_keeps l mq e v o c : keeps (isDropped l) (pullKernelImpl mq e v o c).
Proof.
  unfold pullKernelImpl, findBrokerAddress, recalculatePullFromWhichNode.
  repeat keeps_step.
Qed.

Lemma executePullRequestImmediately_keeps l mq :
  keeps (isDropped l) (executePullRequestImmediately mq).
Proof.
  unfold executePullRequestImmediately, readRow, option_.
  repeat (cbv beta zeta;
          lazymatch goal with
          | |- keeps _ (handlePullResult _ _ _ _) => apply handlePullResult_keeps
          | |- keeps _ (pullKernelImpl _ _ _ _ _) => apply pullKernelImpl_keeps
          | _ => keeps_step
          end).
Qed.

Lemma pullMessageQueue_keeps l fuel mq : keeps (isDropped l) (pullMessageQueue fuel mq).
Proof.
  induction fuel as [|fuel IH]; cbn [pullMessageQueue]; [apply keeps_ret|].
  unfold pullRound, option_.
  repeat (cbv beta zeta;
          lazymatch goal with
          | |- keeps _ (pullMessageQueue _ _) => apply IH
          | |- keeps _ (executePullRequestImmediately _) =>
              apply executePullRequestImmediately_keeps
          | _ => keeps_step
          end).
Qed.

Lemma updateProcessQueueTableInRebalance_keeps l topic mqSet :
  keeps (isDropped l) (updateProcessQueueTableInRebalance topic mqSet).
Proof.
  unfold updateProcessQueueTableInRebalance, removeUnnecessaryQueues, removeIfUnnecessary,
    addIfMissing, computePullFromWhere, removeUnnecessaryMessageQueue, dropProcessQueue,
    readRow.
  repeat keeps_step.
Qed.

(** C3 (as amended).  A round that begins with the process queue of its
    queue dropped makes no call, so no pull and no [updateOffset], and
    changes nothing.  No method clears the flag: set on a row, it is still
    set after any round of a worker, any number of rounds, and any
    rebalance.  The flag is tested at the beginning of a round only: with
    the flag set, the reply of a pull is handled as any other, and a reply
    without a new message still leads to [updateOffset]. *)
Theorem dropped_flag_is_kept (env : Env) (mq : MessageQueue) (l : loc) (s : State)
    (tr : list Request) (fuel : nat) (topic : string) (mqSet : list MessageQueue) :
  (forall q h s', isDropped l s' -> isDropped l (meanwhile env q h s')) ->
  isDropped l s ->
  (map_get (key mq) (State.processQueueTable s) = Some l ->
   run env (executePullRequestImmediately mq s) tr = mkOutcome (inr tt) s tr) /\
  isDropped l (final (run env (executePullRequestImmediately mq s) tr)) /\
  isDropped l (final (run env (pullMessageQueue fuel mq s) tr)) /\
  isDropped l (final (run env (updateProcessQueueTableInRebalance topic mqSet s) tr)) /\
  (forall sd pr,
     PullResult.pullStatus pr = NO_NEW_MSG ->
     trace (run env (handlePullResult mq l sd pr s) tr) =
     tr ++ [UpdateOffset (PullRequest.messageQueue (State.heap s l))
              (PullResult.nextBeginOffset pr) true]).
Proof.
  intros Henv Hs. split; [|split; [|split; [|split]]].
  - intros Hl. destruct Hs as [_ Hd].
    unfold executePullRequestImmediately. msimpl. rewrite Hl. msimpl. rewrite Hd. reflexivity.
  - apply preserves_run; [exact Henv|]. apply executePullRequestImmediately_keeps, Hs.
  - apply preserves_run; [exact Henv|]. apply pullMessageQueue_keeps, Hs.
  - apply preserves_run; [exact Henv|]. apply updateProcessQueueTableInRebalance_keeps, Hs.
  - intros sd pr Hst. unfold handlePullResult, updatePullFromWhichNode, correctTagsOffset.
    msimpl. rewrite Hst. msimpl. rewrite bool_decide_eq_true_2 by reflexivity.
    cbn [PullRequest.set_nextOffset PullRequest.messageQueue PullRequest.nextOffset].
    destruct (answer env _ tr); msimpl; reflexivity.
Qed.

Lemma dropped_flag_is_kept_witness :
  run (quiet (Scenario.answers 5 Scenario.found (Some 10)))
      (executePullRequestImmediately Scenario.mq (Scenario.state true 0 1000)) [] =
  mkOutcome (inr tt) (Scenario.state true 0 1000) [].
Proof.
  apply (proj1 (@dropped_flag_is_kept
                  (quiet (Scenario.answers 5 Scenario.found (Some 10)))
                  Scenario.mq 0%nat (Scenario.state true 0 1000) [] 1 "TopicTest" []
                  (fun _ _ _ H => H)
                  (conj (Nat.lt_0_succ 0) eq_refl))).
  reflexivity.
Defined.

(** C3, as stated, fails: the rebalance sets the flag and removes the key
    while the pull is outstanding; the reply is FOUND, the batch is
    delivered, and [updateOffset] is called with the flag set; the round
    ends by putting the row back in the table. *)
Lemma outstanding_pull_advances_offset :
  let env := rebalanceWhilePulling (Scenario.answers 5 Scenario.found (Some 10)) in
  let r := executePullRequestImmediately Scenario.mq (Scenario.state false 0 1000) in
  map (fun c => (fst c,
                 ProcessQueue.droped (PullRequest.processQueue (State.heap (snd c) 0%nat)),
                 map_has (key Scenario.mq) (State.processQueueTable (snd c))))
      (history env r []) =
  [ (ReadOffset Scenario.mq READ_FROM_MEMORY, false, true);
    (FindBrokerAddressInSubscribe "broker-a" 0 false, false, true);
    (PullMessage "10.0.0.1:10911" (Scenario.header 5 7) 30000, false, true);
    (EmitMessage [Scenario.msg "TagA" 5; Scenario.msg "TagB" 7], true, false);
    (UpdateOffset Scenario.mq 8 false, true, false) ] /\
  map_get (key Scenario.mq) (State.processQueueTable (final (run env r []))) = Some 0%nat.
Proof. split; vm_compute; reflexivity. Qed.

(** ** The removal pass of a rebalance *)

Lemma map_get_app_skip {K V} `{EqDecision K} (k : K) (m1 m2 : list (K * V)) :
  ~ In k (map fst m1) -> map_get k (m1 ++ m2) = map_get k m2.
Proof.
  induction m1 as [|[k' v'] m1 IH]; simpl; intros Hn; [reflexivity|].
  rewrite bool_decide_eq_false_2 by (intros ->; apply Hn; left; reflexivity).
  apply IH. intros Hin. apply Hn. right. exact Hin.
Qed.

Lemma map_delete_absent {K V} `{EqDecision K} (k : K) (m : list (K * V)) :
  ~ In k (map fst m) -> map_delete k m = m.
Proof.
  induction m as [|[k' v'] m IH]; simpl; intros Hn; [reflexivity|].
  rewrite bool_decide_eq_false_2 by (intros ->; apply Hn; left; reflexivity).
  f_equal. apply IH. intros Hin. apply Hn. right. exact Hin.
Qed.

Lemma map_delete_app {K V} `{EqDecision K} (k : K) (m1 m2 : list (K * V)) :
  map_delete k (m1 ++ m2) = map_delete k m1 ++ map_delete k m2.
Proof.
  induction m1 as [|[k' v'] m1 IH]; simpl; [reflexivity|].
  case_bool_decide; simpl; rewrite IH; reflexivity.
Qed.

Section RemovalPass.
Variable ans : forall r : Request, list Request -> JsError + Reply r.
Hypothesis persist_returns : forall mq h, ans (Persist mq) h = inr tt.
Hypothesis removeOffset_returns : forall mq h, ans (RemoveOffset mq) h = inr tt.
Variables (topic : string) (mqSet : list MessageQueue).

Lemma removeIfUnnecessary_run changed k l c tr :
  map_get k (State.processQueueTable c) = Some l ->
  run (quiet ans) (removeIfUnnecessary topic mqSet changed k c) tr =
  if unnecessary topic mqSet (State.now c) (State.heap c l) then
    mkOutcome (inr true)
      (State.set_processQueueTable (map_delete k) (State.update l dropRow c))
      (tr ++ [Persist (PullRequest.messageQueue (State.heap c l));
              RemoveOffset (PullRequest.messageQueue (State.heap c l))])
  else mkOutcome (inr changed) c tr.
Proof.
  intros Hget. unfold removeIfUnnecessary, unnecessary. msimpl. rewrite Hget. msimpl.
  change (bool_decide (consumeType = CONSUME_PASSIVELY)) with true.
  rewrite andb_true_r.
  unfold dropProcessQueue, removeUnnecessaryMessageQueue.
  destruct (bool_decide (topic = _));
    [destruct (someKey mqSet _) | destruct (ProcessQueue.isPullExpired _ _)];
    cbn [negb]; msimpl; try reflexivity;
    cbn [answer meanwhile quiet]; rewrite persist_returns; msimpl;
    cbn [answer meanwhile quiet]; rewrite removeOffset_returns; msimpl;
    rewrite <- app_assoc; reflexivity.
Qed.

Lemma sameRows_refl c : sameRows c c.
Proof. split; [reflexivity|]. intros l. auto. Qed.

Lemma sameRows_trans c1 c2 c3 : sameRows c1 c2 -> sameRows c2 c3 -> sameRows c1 c3.
Proof.
  intros [Hn1 H1] [Hn2 H2]. split; [congruence|]. intros l.
  destruct (H1 l) as (A1 & B1 & C1), (H2 l) as (A2 & B2 & C2).
  repeat split; [congruence | congruence | auto].
Qed.

Lemma sameRows_drop k l c :
  sameRows c (State.set_processQueueTable (map_delete k) (State.update l dropRow c)).
Proof.
  split; [reflexivity|]. intros l'. cbn [State.set_processQueueTable State.update State.heap].
  case_bool_decide as E; [subst|]; auto.
Qed.

Lemma gone_sameRows c c' e : sameRows c c' -> gone topic mqSet c' e = gone topic mqSet c e.
Proof.
  intros [Hn H]. destruct (H (snd e)) as (Hq & Ht & _).
  unfold gone, unnecessary, ProcessQueue.isPullExpired. rewrite Hn, Hq, Ht. reflexivity.
Qed.

(** The loop, with [kept] the entries it has been through and kept and
    [rest] those to come. *)
Lemma removal_loop (rest : list (MQKey * loc)) :
  forall kept c changed tr,
    State.processQueueTable c = kept ++ rest ->
    List.NoDup (map fst (kept ++ rest)) ->
    let out := run (quiet ans)
                   (for_of (map fst rest) (removeIfUnnecessary topic mqSet) changed c) tr in
    State.processQueueTable (final out) =
      kept ++ List.filter (fun e => negb (gone topic mqSet c e)) rest /\
    result out = inr (changed || existsb (gone topic mqSet c) rest) /\
    sameRows c (final out) /\
    (exists more, trace out = tr ++ more) /\
    (forall e, In e rest -> gone topic mqSet c e = true ->
       ProcessQueue.droped (PullRequest.processQueue (State.heap (final out) (snd e))) = true /\
       In (Persist (PullRequest.messageQueue (State.heap c (snd e)))) (trace out)).
Proof.
  induction rest as [|[k l] rest IH]; intros kept c changed tr Htab Hnd; cbv zeta.
  - simpl. rewrite orb_false_r.
    split; [exact Htab|]. split; [reflexivity|]. split; [apply sameRows_refl|].
    split; [exists []; symmetry; apply app_nil_r | intros e []].
  - assert (Hk : ~ In k (map fst kept) /\ ~ In k (map fst rest)).
    { rewrite map_app in Hnd. simpl in Hnd. apply List.NoDup_remove_2 in Hnd.
      rewrite in_app_iff in Hnd. tauto. }
    destruct Hk as [Hk1 Hk2].
    assert (Hget : map_get k (State.processQueueTable c) = Some l).
    { rewrite Htab, map_get_app_skip by exact Hk1. simpl.
      rewrite bool_decide_eq_true_2 by reflexivity. reflexivity. }
    cbn [map fst for_of]. rewrite run_bind. cbv zeta.
    rewrite (removeIfUnnecessary_run changed k c tr Hget).
    cbn [List.filter existsb]. fold (gone topic mqSet c (k, l)).
    change (unnecessary topic mqSet (State.now c) (State.heap c l)) with (gone topic mqSet c (k, l)).
    destruct (gone topic mqSet c (k, l)) eqn:Eg; cbn [result final trace negb].
    + set (c' := State.set_processQueueTable (map_delete k) (State.update l dropRow c)).
      assert (Hsame : sameRows c c') by apply sameRows_drop.
      assert (Htab' : State.processQueueTable c' = kept ++ rest).
      { unfold c'. cbn [State.set_processQueueTable State.update State.processQueueTable].
        rewrite Htab, map_delete_app. simpl.
        rewrite bool_decide_eq_true_2 by reflexivity.
        rewrite !map_delete_absent by assumption. reflexivity. }
      assert (Hnd' : List.NoDup (map fst (kept ++ rest))).
      { rewrite map_app in *. simpl in Hnd. apply List.NoDup_remove_1 in Hnd. exact Hnd. }
      destruct (IH kept c' true
                  (tr ++ [Persist (PullRequest.messageQueue (State.heap c l));
                          RemoveOffset (PullRequest.messageQueue (State.heap c l))])
                  Htab' Hnd') as (H1 & H2 & H3 & [more H4] & H5).
      split; [|split; [|split; [|split]]].
      * rewrite H1. f_equal. apply filter_ext. intros e.
        rewrite (gone_sameRows e Hsame). reflexivity.
      * rewrite H2. rewrite orb_true_r. reflexivity.
      * eapply sameRows_trans; eassumption.
      * rewrite H4, <- app_assoc. eauto.
      * intros e Hin Hg. simpl in Hin. destruct Hin as [<-|Hin].
        -- split.
           ++ apply (proj2 H3 l). unfold c'.
              cbn [State.set_processQueueTable State.update State.heap].
              rewrite bool_decide_eq_true_2 by reflexivity. reflexivity.
           ++ rewrite H4. rewrite <- app_assoc. apply in_or_app. right.
              left. reflexivity.
        -- rewrite <- (gone_sameRows e Hsame) in Hg.
           destruct (H5 e Hin Hg) as [Hd Hp]. split; [exact Hd|].
           rewrite (proj1 (proj2 Hsame (snd e))) in Hp. exact Hp.
    + assert (Htab' : State.processQueueTable c = (kept ++ [(k, l)]) ++ rest).
      { rewrite Htab, <- app_assoc. reflexivity. }
      assert (Hnd' : List.NoDup (map fst ((kept ++ [(k, l)]) ++ rest))).
      { rewrite <- app_assoc. exact Hnd. }
      destruct (IH (kept ++ [(k, l)]) c changed tr Htab' Hnd') as (H1 & H2 & H3 & H4 & H5).
      split; [|split; [|split; [|split]]].
      * rewrite H1, <- app_assoc. reflexivity.
      * exact H2.
      * exact H3.
      * exact H4.
      * intros e Hin Hg. simpl in Hin.
        destruct Hin as [<-|Hin]; [congruence | exact (H5 e Hin Hg)].
Qed.
End RemovalPass.






(** * More of the module *)

(** ** The order of the queues *)

Lemma ascii_compare_refl (a : ascii) : Ascii.compare a a = Eq.
Proof. apply N.compare_refl. Qed.

Lemma string_compare_refl (a : string) : String.compare a a = Eq.
Proof. induction a as [|x a IH]; simpl; [reflexivity|]. rewrite ascii_compare_refl. exact IH. Qed.

Lemma string_gt_swap (a b : string) :
  a <> b -> string_gt b a = negb (string_gt a b).
Proof.
  intros Hne. unfold string_gt. rewrite (String.compare_antisym b a).
  destruct (String.compare a b) eqn:E; try reflexivity.
  apply String.compare_eq_iff in E. contradiction.
Qed.

Lemma ascii_compare_lt_trans (a b c : ascii) :
  Ascii.compare a b = Lt -> Ascii.compare b c = Lt -> Ascii.compare a c = Lt.
Proof.
  unfold Ascii.compare. rewrite !N.compare_lt_iff. apply N.lt_trans.
Qed.

Lemma string_compare_lt_trans (a : string) :
  forall b c, String.compare a b = Lt -> String.compare b c = Lt -> String.compare a c = Lt.
Proof.
  induction a as [|x a IH]; intros [|y b] [|z c]; simpl; try discriminate; try reflexivity.
  destruct (Ascii.compare x y) eqn:Exy; try discriminate;
    destruct (Ascii.compare y z) eqn:Eyz; try discriminate.
  - apply Ascii.compare_eq_iff in Exy, Eyz. subst.
    rewrite ascii_compare_refl. apply IH.
  - apply Ascii.compare_eq_iff in Exy. subst. rewrite Eyz. reflexivity.
  - apply Ascii.compare_eq_iff in Eyz. subst. rewrite Exy. reflexivity.
  - rewrite (ascii_compare_lt_trans _ _ _ Exy Eyz). reflexivity.
Qed.

(** When [compare] puts a queue before another. *)
Lemma compare_neg (a b : MessageQueue) :
  compare a b < 0 <->
  String.compare (MessageQueue.topic a) (MessageQueue.topic b) = Lt \/
  (MessageQueue.topic a = MessageQueue.topic b /\
   (String.compare (MessageQueue.brokerName a) (MessageQueue.brokerName b) = Lt \/
    (MessageQueue.brokerName a = MessageQueue.brokerName b /\
     MessageQueue.queueId a < MessageQueue.queueId b))).
Proof.
  unfold compare, string_gt.
  case_bool_decide as Et.
  - rewrite Et, string_compare_refl. case_bool_decide as Eb.
    + rewrite Eb, string_compare_refl. split.
      * intros H. right. split; [reflexivity|]. right. split; [reflexivity | lia].
      * intros [H|[_ [H|[_ H]]]]; try discriminate. lia.
    + destruct (String.compare (MessageQueue.brokerName a) (MessageQueue.brokerName b)) eqn:E.
      * apply String.compare_eq_iff in E. contradiction.
      * split; [intros _; right; split; [reflexivity | left; reflexivity] | lia].
      * split; [lia|]. intros [H|[_ [H|[H _]]]]; try discriminate. contradiction.
  - destruct (String.compare (MessageQueue.topic a) (MessageQueue.topic b)) eqn:E.
    + apply String.compare_eq_iff in E. contradiction.
    + split; [intros _; left; reflexivity | lia].
    + split; [lia|]. intros [H|[H _]]; [discriminate | contradiction].
Qed.

(** X1.  [compare] is antisymmetric, and it is 0 on one queue only: the
    queues are equal when their topic, broker name and queue id are. *)
Theorem compare_is_antisymmetric (a b : MessageQueue) :
  compare b a = - compare a b /\ (compare a b = 0 <-> a = b).
Proof.
  unfold compare. split.
  - repeat case_bool_decide; try congruence; try lia.
    + rewrite (string_gt_swap (a := MessageQueue.brokerName a) (b := MessageQueue.brokerName b))
        by assumption.
      destruct (string_gt _ _); reflexivity.
    + rewrite (string_gt_swap (a := MessageQueue.topic a) (b := MessageQueue.topic b))
        by assumption.
      destruct (string_gt _ _); reflexivity.
  - split.
    + case_bool_decide as Et; [|destruct (string_gt _ _); discriminate].
      case_bool_decide as Eb; [|destruct (string_gt _ _); discriminate].
      intros Hq. destruct a, b; simpl in *. f_equal; [assumption | assumption | lia].
    + intros ->. rewrite !bool_decide_eq_true_2 by reflexivity. lia.
Qed.

(** X2.  [compare] is transitive: a queue that goes before a second one,
    which goes before a third, goes before the third. *)
Theorem compare_is_transitive (a b c : MessageQueue) :
  compare a b < 0 -> compare b c < 0 -> compare a c < 0.
Proof.
  rewrite !compare_neg.
  intros [Hab|[Tab [Hab|[Bab Hab]]]] [Hbc|[Tbc [Hbc|[Bbc Hbc]]]].
  - left. eapply string_compare_lt_trans; eassumption.
  - left. rewrite <- Tbc. exact Hab.
  - left. rewrite <- Tbc. exact Hab.
  - left. rewrite Tab. exact Hbc.
  - right. split; [congruence|]. left. eapply string_compare_lt_trans; eassumption.
  - right. split; [congruence|]. left. rewrite <- Bbc. exact Hab.
  - left. rewrite Tab. exact Hbc.
  - right. split; [congruence|]. left. rewrite Bab. exact Hbc.
  - right. split; [congruence|]. right. split; [congruence | lia].
Qed.

Lemma compare_is_transitive_witness :
  compare (MessageQueue.mk "T" "broker-a" 3) (MessageQueue.mk "T" "broker-b" 1) < 0.
Proof.
  apply (@compare_is_transitive (MessageQueue.mk "T" "broker-a" 3) (MessageQueue.mk "T" "broker-b" 0)
           (MessageQueue.mk "T" "broker-b" 1)); reflexivity.
Defined.

(** ** The tables of the routes and of the broker to pull from *)

Lemma map_get_set_other {K V} `{EqDecision K} (k k' : K) (v : V) (m : list (K * V)) :
  k' <> k -> map_get k' (map_set k v m) = map_get k' m.
Proof.
  intros Hne. induction m as [|[k0 v0] m IH]; simpl.
  - rewrite bool_decide_eq_false_2 by congruence. reflexivity.
  - case_bool_decide as E; simpl.
    + subst. rewrite !bool_decide_eq_false_2 by congruence. reflexivity.
    + case_bool_decide; [reflexivity | exact IH].
Qed.

(** X3.  The broker that the reply of a pull suggests for a queue is the
    one the next pull of that queue asks for; the suggestion for one queue
    leaves the others as they were, and a queue without a suggestion is
    pulled from the master. *)
Theorem pullFromWhichNode_round_trip (env : Env) (mq mq' : MessageQueue) (brokerId : Z)
    (s : State) (tr : list Request) :
  result (run env ((updatePullFromWhichNode mq brokerId ;;;
                    recalculatePullFromWhichNode mq') s) tr) =
    (if bool_decide (key mq' = key mq) then inr brokerId
     else result (run env (recalculatePullFromWhichNode mq' s) tr)) /\
  (map_get (key mq) (State.pullFromWhichNodeTable s) = None ->
   result (run env (recalculatePullFromWhichNode mq s) tr) = inr MixAll.MASTER_ID).
Proof.
  unfold updatePullFromWhichNode, recalculatePullFromWhichNode. msimpl. split.
  - case_bool_decide as E.
    + rewrite E, map_get_set. unfold truthyNumber, MixAll.MASTER_ID.
      destruct (Z.eqb_spec brokerId 0); simpl; congruence.
    + rewrite map_get_set_other by exact E. reflexivity.
  - intros ->. reflexivity.
Qed.

Lemma pullFromWhichNode_round_trip_witness :
  result (run (quiet (Scenario.answers 5 Scenario.found None))
              (recalculatePullFromWhichNode Scenario.mq (Scenario.state false 0 1000)) []) =
  inr MixAll.MASTER_ID.
Proof.
  apply (proj2 (@pullFromWhichNode_round_trip
                  (quiet (Scenario.answers 5 Scenario.found None))
                  Scenario.mq Scenario.mq 1 (Scenario.state false 0 1000) [])).
  reflexivity.
Defined.

(** X4.  Once the route of a topic has been handed to
    [updateTopicSubscribeInfo], [isSubscribeTopicNeedUpdate] is false for
    that topic, subscribed or not; the route of a subscribed topic is the
    one read back, that of a topic that is not subscribed is not kept, and
    the other topics are asked for as before. *)
Theorem updateTopicSubscribeInfo_isSubscribeTopicNeedUpdate
    (subscriptions : list (string * SubscriptionData))
    (table : list (string * list MessageQueue)) (topic : string) (info : list MessageQueue) :
  let table' := updateTopicSubscribeInfo subscriptions table topic info in
  isSubscribeTopicNeedUpdate subscriptions table' topic = false /\
  (if map_has topic subscriptions then map_get topic table' = Some info
   else table' = table) /\
  (forall topic', topic' <> topic ->
     isSubscribeTopicNeedUpdate subscriptions table' topic' =
     isSubscribeTopicNeedUpdate subscriptions table topic').
Proof.
  cbv zeta. unfold updateTopicSubscribeInfo, isSubscribeTopicNeedUpdate.
  destruct (map_has topic subscriptions) eqn:Hs.
  - split; [|split].
    + unfold map_has. rewrite map_get_set. reflexivity.
    + apply map_get_set.
    + intros topic' Hne. unfold map_has at 2. rewrite map_get_set_other by exact Hne.
      reflexivity.
  - split; [reflexivity|]. split; reflexivity.
Qed.

Lemma updateTopicSubscribeInfo_isSubscribeTopicNeedUpdate_witness :
  isSubscribeTopicNeedUpdate [("TopicTest", Scenario.sd)]
    (updateTopicSubscribeInfo [("TopicTest", Scenario.sd)] [] "Other" [Scenario.mq])
    "TopicTest" =
  isSubscribeTopicNeedUpdate [("TopicTest", Scenario.sd)] [] "TopicTest".
Proof.
  apply (proj2 (proj2 (@updateTopicSubscribeInfo_isSubscribeTopicNeedUpdate
                         [("TopicTest", Scenario.sd)] [] "Other" [Scenario.mq]))).
  discriminate.
Defined.

(** ** More on the subscription expressions *)

Lemma append_assoc (a b c : string) : (a +:+ b) +:+ c = a +:+ (b +:+ c).
Proof.
  induction a as [|x a IH]; [reflexivity|]. rewrite !append_cons. f_equal. exact IH.
Qed.

Lemma append_empty_r (a : string) : a +:+ "" = a.
Proof.
  induction a as [|x a IH]; [reflexivity|]. rewrite append_cons. f_equal. exact IH.
Qed.

Lemma split_from_other (cur : string) (c : ascii) (r : string) :
  Ascii.eqb c "|" = false ->
  split_from cur (String c r) = split_from (cur +:+ String c "") r.
Proof. intros Hc. simpl. destruct r; rewrite ?Hc; reflexivity. Qed.

Lemma split_from_barFree (t cur : string) :
  barFree t = true ->
  split_from cur t = [cur +:+ t] /\
  forall rest, split_from cur (t +:+ "||" +:+ rest) = (cur +:+ t) :: split_from "" rest.
Proof.
  revert cur; induction t as [|c t IH]; intros cur Hb.
  - rewrite append_empty_r. split; reflexivity.
  - simpl in Hb. apply andb_prop in Hb as [Hc Ht]. apply negb_true_iff in Hc.
    destruct (IH (cur +:+ String c "") Ht) as [IH1 IH2].
    assert (Hcur : (cur +:+ String c "") +:+ t = cur +:+ String c t).
    { rewrite append_assoc. reflexivity. }
    split.
    + rewrite split_from_other by exact Hc. rewrite IH1, Hcur. reflexivity.
    + intros rest. change (String c t +:+ "||" +:+ rest) with (String c (t +:+ "||" +:+ rest)).
      rewrite split_from_other by exact Hc. rewrite IH2, Hcur. reflexivity.
Qed.

Lemma split_concat (tags : list string) :
  tags <> [] -> Forall (fun t => barFree t = true) tags ->
  split (String.concat "||" tags) = tags.
Proof.
  unfold split. induction tags as [|t tags IH]; intros Hne Hall; [congruence|].
  apply Forall_cons in Hall as [Ht Hall]. destruct tags as [|t' tags].
  - simpl. apply (proj1 (@split_from_barFree t "" Ht)).
  - change (String.concat "||" (t :: t' :: tags))
      with (t +:+ "||" +:+ String.concat "||" (t' :: tags)).
    rewrite (proj2 (@split_from_barFree t "" Ht)). simpl append. f_equal.
    apply IH; [discriminate | exact Hall].
Qed.

Lemma trimEnd_idem (s : string) : trimEnd (trimEnd s) = trimEnd s.
Proof.
  induction s as [|c r IH]; simpl; [reflexivity|].
  destruct (isWhiteSpace c && negb (truthy (trimEnd r))) eqn:E; [reflexivity|].
  simpl. rewrite IH, E. reflexivity.
Qed.

Lemma trimStart_head (s : string) :
  match trimStart s with
  | EmptyString => True
  | String c _ => isWhiteSpace c = false
  end.
Proof.
  induction s as [|c r IH]; simpl; [exact I|].
  destruct (isWhiteSpace c) eqn:E; [exact IH | exact E].
Qed.

Lemma trim_idem (s : string) : trim (trim s) = trim s.
Proof.
  unfold trim. pose proof (trimStart_head s) as H.
  destruct (trimStart s) as [|c r]; [reflexivity|].
  assert (Hend : trimEnd (String c r) = String c (trimEnd r)).
  { simpl. rewrite H. reflexivity. }
  rewrite Hend. simpl trimStart. rewrite H. rewrite <- Hend. apply trimEnd_idem.
Qed.

(** X5.  Every tag of the [tagsSet] of a subscription is a trimmed piece of
    the expression: it is not empty and trimming it again changes
    nothing. *)
Theorem buildSubscriptionData_tags_trimmed (now : Z) (consumerGroup topic : string)
    (subString : option string) (sd : SubscriptionData) (tag : string) :
  buildSubscriptionData now consumerGroup topic subString = inr sd ->
  In tag (SubscriptionData.tagsSet sd) ->
  tag <> "" /\ trim tag = tag /\
  exists s piece, subString = Some s /\ In piece (split s) /\ tag = trim piece.
Proof.
  unfold buildSubscriptionData. destruct subString as [s|]; [|intros [= <-] []].
  destruct (bool_decide (s = "*") || bool_decide (s = "")); [intros [= <-] []|].
  rewrite split_length_pos, fold_pushTag. intros [= <-]. simpl.
  intros Hin. apply filter_In in Hin as [Hin Ht].
  apply in_map_iff in Hin as [piece [<- Hp]]. split; [|split].
  - intros E. rewrite E in Ht. discriminate.
  - apply trim_idem.
  - eauto.
Qed.

Lemma buildSubscriptionData_tags_trimmed_witness :
  "TagB" <> "" /\ trim "TagB" = "TagB" /\
  exists s piece, Some " TagA || TagB " = Some s /\ In piece (split s) /\ "TagB" = trim piece.
Proof.
  apply (@buildSubscriptionData_tags_trimmed 7 "group" "TopicTest" (Some " TagA || TagB ")
           (SubscriptionData.mk "TopicTest" " TagA || TagB " false
              ["TagA"; "TagB"] [2598919; 2598920] 7) "TagB").
  - reflexivity.
  - right. left. reflexivity.
Defined.

(** X6.  Tags that are not empty, trimmed and written without ['|'],
    joined with ['||'], are the [tagsSet] of the subscription built from
    the joined expression, in the same order, unless the expression is the
    single tag ['*'], which subscribes to everything. *)
Theorem buildSubscriptionData_concat (now : Z) (consumerGroup topic : string)
    (tags : list string) :
  tags <> [] ->
  Forall cleanTag tags ->
  (tags <> ["*"] ->
   buildSubscriptionData now consumerGroup topic (Some (String.concat "||" tags)) =
     inr (SubscriptionData.mk topic (String.concat "||" tags) false
            tags (map hashCode tags) now)) /\
  (tags = ["*"] ->
   buildSubscriptionData now consumerGroup topic (Some (String.concat "||" tags)) =
     inr (SubscriptionData.mk topic "*" false [] [] now)).
Proof.
  intros Hne Hall. split; [|intros ->; reflexivity].
  intros Hstar.
  assert (Hsplit : split (String.concat "||" tags) = tags).
  { apply split_concat; [exact Hne|].
    eapply Forall_impl; [exact Hall|]. intros t (_ & _ & Hb). exact Hb. }
  assert (Htok : tokens (String.concat "||" tags) = tags).
  { unfold tokens. rewrite Hsplit. clear Hsplit Hne Hstar.
    induction Hall as [|t l (Ht & Htrim & _) _ IH]; [reflexivity|].
    simpl. rewrite Htrim, Ht. simpl. f_equal. exact IH. }
  assert (Hjoin : String.concat "||" tags <> "" /\ String.concat "||" tags <> "*").
  { destruct tags as [|t tags]; [congruence|].
    apply Forall_cons in Hall as [(Ht & _ & Hb) Hall].
    destruct t as [|c t]; [discriminate|]. split.
    - destruct tags; simpl; discriminate.
    - destruct tags as [|t' tags].
      + simpl. intros E. apply Hstar. rewrite E. reflexivity.
      + change (String.concat "||" (String c t :: t' :: tags))
          with (String c (t +:+ "||" +:+ String.concat "||" (t' :: tags))).
        intros E. injection E as -> E. destruct t; discriminate. }
  destruct Hjoin as [Hj1 Hj2].
  unfold buildSubscriptionData. rewrite !bool_decide_eq_false_2 by assumption. simpl orb.
  cbv iota. rewrite split_length_pos, fold_pushTag. simpl.
  fold (tokens (String.concat "||" tags)). rewrite Htok. reflexivity.
Qed.

Lemma buildSubscriptionData_concat_witness :
  buildSubscriptionData 7 "group" "TopicTest" (Some (String.concat "||" ["TagA"; "TagB"])) =
    inr (SubscriptionData.mk "TopicTest" (String.concat "||" ["TagA"; "TagB"]) false
           ["TagA"; "TagB"] (map hashCode ["TagA"; "TagB"]) 7).
Proof.
  apply (proj1 (@buildSubscriptionData_concat 7 "group" "TopicTest" ["TagA"; "TagB"]
                  ltac:(discriminate)
                  ltac:(repeat constructor))).
  discriminate.
Defined.

(** ** More on the rounds of a worker *)

Lemma filter_sublist {A} (p : A -> bool) (l : list A) : sublist (List.filter p l) l.
Proof.
  induction l as [|x l IH]; simpl; [constructor|].
  destruct (p x); [apply sublist_skip | apply sublist_cons]; exact IH.
Qed.

Lemma filterByTags_sublist (sd : SubscriptionData) (l : list Message) :
  sublist (filterByTags sd l) l.
Proof.
  unfold filterByTags. destruct (_ && _); [apply filter_sublist | reflexivity].
Qed.

Lemma handlePullResult_emitsOnly mq l sd pr s :
  always (emitsOnly (filterByTags sd (PullResult.msgFoundList pr)))
         (handlePullResult mq l sd pr s).
Proof.
  unfold handlePullResult, updatePullFromWhichNode, correctTagsOffset, deliver,
    dropProcessQueue, removeProcessQueue, removeUnnecessaryMessageQueue.
  mstep. destruct (PullResult.pullStatus pr); mstep.
  - destruct (filterByTags sd (PullResult.msgFoundList pr)) as [|first rest] eqn:E; mstep;
      [exact I|].
    split; [split; [reflexivity | discriminate]|]. mcases.
  - mcases.
  - mcases.
  - mcases.
Qed.

(** X7.  Whatever the reply of the pull, a batch handed to the listeners is
    never empty, and it is a subsequence of the fetched messages: the
    messages come in the order the broker gave them. *)
Theorem delivered_batch_in_order (env : Env) (mq : MessageQueue) (l : loc)
    (sd : SubscriptionData) (pr : PullResult) (s : State) (batch : list Message) :
  In (EmitMessage batch) (trace (run env (handlePullResult mq l sd pr s) [])) ->
  batch <> [] /\ sublist batch (PullResult.msgFoundList pr).
Proof.
  intros Hin.
  assert (Hall : Forall (emitsOnly (filterByTags sd (PullResult.msgFoundList pr)))
                   (trace (run env (handlePullResult mq l sd pr s) []))).
  { apply always_run; [apply handlePullResult_emitsOnly | constructor]. }
  rewrite Forall_forall in Hall.
  destruct (Hall (EmitMessage batch)) as [-> Hne]; [apply list_elem_of_In, Hin|].
  split; [exact Hne | apply filterByTags_sublist].
Qed.

Lemma delivered_batch_in_order_witness :
  [Scenario.msg "TagA" 5; Scenario.msg "TagB" 7] <> [] /\
  sublist [Scenario.msg "TagA" 5; Scenario.msg "TagB" 7]
          (PullResult.msgFoundList Scenario.found).
Proof.
  apply (@delivered_batch_in_order (quiet (Scenario.answers 5 Scenario.found (Some 10)))
           Scenario.mq 0%nat Scenario.sd Scenario.found (Scenario.state false 0 1000)).
  left. reflexivity.
Defined.

Lemma pullKernelImpl_pullsAt mq e v o c s :
  always (pullsAt mq e v o) (pullKernelImpl mq e v o c s).
Proof.
  assert (Hflag : forall slave : bool,
    let flag := PullSysFlag.buildSysFlag (0 <? c) true (hasExpression e) false in
    let sent := if slave then PullSysFlag.clearCommitOffsetFlag flag else flag in
    Z.testbit sent 1 = true /\ Z.testbit sent 2 = hasExpression e /\ Z.testbit sent 3 = false).
  { intros slave. destruct slave, (0 <? c), (hasExpression e); repeat split; reflexivity. }
  unfold pullKernelImpl, findBrokerAddress, recalculatePullFromWhichNode.
  mcases;
    cbn [pullsAt RequestHeader.topic RequestHeader.queueId RequestHeader.queueOffset
         RequestHeader.subscription RequestHeader.subVersion RequestHeader.sysFlag];
    (do 5 (split; [reflexivity|])); first [apply (Hflag true) | apply (Hflag false)].
Qed.

Lemma pull_and_handle_pullsAt mq l sd e v o c s :
  always (pullsAt mq e v o)
    (bindR (pullKernelImpl mq e v o c s) (fun pullResult => handlePullResult mq l sd pullResult)).
Proof.
  apply always_bindR; [apply pullKernelImpl_pullsAt|].
  intros pr s'. eapply always_impl; [|apply handlePullResult_no_pull].
  intros [] Hq; try exact I; discriminate.
Qed.

(** X8.  When no other task touches the row, the pull of a round asks for
    the [nextOffset] of the row of the queue, for the topic and the id of
    the queue, with the expression and the version of its subscription
    (no expression when [postSubscriptionWhenPull] is off); the broker may
    suspend the pull, and the subscription is never a class filter. *)
Theorem pull_asks_nextOffset
    (ans : forall r : Request, list Request -> JsError + Reply r)
    (mq : MessageQueue) (s : State) (l : loc) (sd : SubscriptionData)
    (brokerAddr : string) (h : RequestHeader) (timeout : Z) :
  map_get (key mq) (State.processQueueTable s) = Some l ->
  map_get (MessageQueue.topic mq) (State.subscriptions s) = Some sd ->
  In (PullMessage brokerAddr h timeout)
     (trace (run (quiet ans) (executePullRequestImmediately mq s) [])) ->
  RequestHeader.queueOffset h = PullRequest.nextOffset (State.heap s l) /\
  RequestHeader.topic h = MessageQueue.topic mq /\
  RequestHeader.queueId h = MessageQueue.queueId mq /\
  RequestHeader.subscription h =
    (if Options.postSubscriptionWhenPull (State.options s)
     then Some (SubscriptionData.subString sd) else None) /\
  RequestHeader.subVersion h = SubscriptionData.subVersion sd /\
  Z.testbit (RequestHeader.sysFlag h) 1 = true /\
  Z.testbit (RequestHeader.sysFlag h) 3 = false.
Proof.
  intros Hl Hsd. unfold executePullRequestImmediately. msimpl. rewrite Hl. msimpl.
  destruct (ProcessQueue.droped _); msimpl; [intros []|].
  rewrite Hsd. msimpl.
  set (e := if Options.postSubscriptionWhenPull (State.options s)
            then Some (SubscriptionData.subString sd) else None).
  assert (Hfin : forall (r : Res unit) tr,
    always (pullsAt mq e (SubscriptionData.subVersion sd)
              (PullRequest.nextOffset (State.heap s l))) r ->
    Forall (fun q => isPullMessage q = false) tr ->
    In (PullMessage brokerAddr h timeout) (trace (run (quiet ans) r tr)) ->
    RequestHeader.queueOffset h = PullRequest.nextOffset (State.heap s l) /\
    RequestHeader.topic h = MessageQueue.topic mq /\
    RequestHeader.queueId h = MessageQueue.queueId mq /\
    RequestHeader.subscription h = e /\
    RequestHeader.subVersion h = SubscriptionData.subVersion sd /\
    Z.testbit (RequestHeader.sysFlag h) 1 = true /\
    Z.testbit (RequestHeader.sysFlag h) 3 = false).
  { intros r tr Hr Htr Hin.
    assert (Hall : Forall (pullsAt mq e (SubscriptionData.subVersion sd)
                             (PullRequest.nextOffset (State.heap s l)))
                     (trace (run (quiet ans) r tr))).
    { apply always_run; [exact Hr|].
      eapply Forall_impl; [exact Htr|]. intros [] Hq; try exact I; discriminate. }
    rewrite Forall_forall in Hall.
    pose proof (Hall (PullMessage brokerAddr h timeout) (proj2 (list_elem_of_In _ _) Hin)) as H.
    cbn [pullsAt] in H. tauto. }
  unfold messageModel. msimpl.
  destruct (bool_decide (CLUSTERING = _)); msimpl.
  - rewrite bool_decide_eq_true_2 by reflexivity. cbn [answer meanwhile quiet].
    destruct (ans (ReadOffset _ _) []) as [err|offset]; msimpl.
    + intros [H|[]]; discriminate H.
    + cbn [answer meanwhile quiet]. msimpl. rewrite bool_decide_eq_true_2 by reflexivity.
      cbn [PullRequest.set_processQueue PullRequest.nextOffset]. unfold bind.
      apply Hfin; [apply pull_and_handle_pullsAt | repeat constructor].
  - rewrite bool_decide_eq_true_2 by reflexivity.
    cbn [PullRequest.set_processQueue PullRequest.nextOffset]. unfold bind.
    apply Hfin; [apply pull_and_handle_pullsAt | constructor].
Qed.

Lemma pull_asks_nextOffset_witness :
  RequestHeader.queueOffset (Scenario.header 5 7) =
    PullRequest.nextOffset (State.heap (Scenario.state false 0 1000) 0%nat) /\
  RequestHeader.topic (Scenario.header 5 7) = MessageQueue.topic Scenario.mq /\
  RequestHeader.queueId (Scenario.header 5 7) = MessageQueue.queueId Scenario.mq /\
  RequestHeader.subscription (Scenario.header 5 7) = Some "TagA||TagB" /\
  RequestHeader.subVersion (Scenario.header 5 7) = 7 /\
  Z.testbit (RequestHeader.sysFlag (Scenario.header 5 7)) 1 = true /\
  Z.testbit (RequestHeader.sysFlag (Scenario.header 5 7)) 3 = false.
Proof.
  apply (@pull_asks_nextOffset (Scenario.answers 5 Scenario.found (Some 10))
           Scenario.mq (Scenario.state false 0 1000) 0%nat Scenario.sd
           "10.0.0.1:10911" (Scenario.header 5 7) 30000 eq_refl eq_refl).
  vm_compute. right; right; left. reflexivity.
Defined.

(** The steps of [keeps], with [tac] for the writes on the fields. *)
Ltac keeps_with tac :=
  cbv beta zeta;
  lazymatch goal with
  | |- keeps _ (bind _ _) => apply keeps_bind; [|intro]
  | |- keeps _ (ret _) => apply keeps_ret
  | |- keeps _ (throw _) => apply keeps_throw
  | |- keeps _ (gets _) => apply keeps_gets
  | |- keeps ?I (call ?q) => exact (@keeps_call I q)
  | |- keeps _ (try_catch _ _) => apply keeps_try_catch; [|intro]
  | |- keeps _ (for_of _ _ _) => apply keeps_for_of; intros
  | |- keeps _ (modify _) => apply keeps_modify; intros ? ?; tac
  | |- keeps _ (match ?x with _ => _ end) => destruct x
  end.

Lemma pullsNext_update l l' f o s :
  (forall r, PullRequest.nextOffset (f r) = PullRequest.nextOffset r) ->
  pullsNext l o s -> pullsNext l o (State.update l' f s).
Proof.
  intros Hf Hs. unfold pullsNext. cbn [State.update State.heap].
  case_bool_decide as E; [subst; rewrite Hf|]; exact Hs.
Qed.

(** X9.  Whatever the status of the reply, and also when the delivery of
    the batch ends with an exception, the row of the queue is left with
    [nextOffset] at the [nextBeginOffset] of the reply, as long as the
    other tasks leave it there: the next pull does not ask for the same
    messages again. *)
Theorem reply_moves_nextOffset (env : Env) (mq : MessageQueue) (l : loc)
    (sd : SubscriptionData) (pr : PullResult) (s : State) (tr : list Request) :
  (forall q h s', pullsNext l (PullResult.nextBeginOffset pr) s' ->
                  pullsNext l (PullResult.nextBeginOffset pr) (meanwhile env q h s')) ->
  pullsNext l (PullResult.nextBeginOffset pr)
            (final (run env (handlePullResult mq l sd pr s) tr)).
Proof.
  intros Henv. apply preserves_run; [exact Henv|].
  unfold handlePullResult, updatePullFromWhichNode. msimpl.
  apply preserves_bindR.
  - assert (Hk : keeps (pullsNext l (PullResult.nextBeginOffset pr))
                   match PullResult.pullStatus pr with
                   | FOUND =>
                       match filterByTags sd (PullResult.msgFoundList pr) with
                       | [] => ret tt
                       | first :: _ =>
                           deliver (filterByTags sd (PullResult.msgFoundList pr))
                             (SubscriptionData.topic sd)
                             (toNumber (Message.queueOffset first))
                             (toNumber (Message.queueOffset
                                (List.last (filterByTags sd (PullResult.msgFoundList pr))
                                           first))) ;;;
                           call (UpdateOffset mq
                                   (numberAdd
                                      (toNumber (Message.queueOffset
                                         (List.last (filterByTags sd (PullResult.msgFoundList pr))
                                                    first))) 1) false)
                       end
                   | OFFSET_ILLEGAL =>
                       dropProcessQueue l ;;;
                       call (Sleep 10000) ;;;
                       row <- readRow l ;;
                       call (UpdateOffset mq (PullRequest.nextOffset row) false) ;;;
                       call (Persist mq) ;;; removeProcessQueue mq
                   | _ => correctTagsOffset l
                   end).
    { unfold deliver, correctTagsOffset, dropProcessQueue, removeProcessQueue,
        removeUnnecessaryMessageQueue, readRow.
      repeat keeps_with ltac:(first [ apply pullsNext_update; [intros []; reflexivity | assumption]
                                    | assumption ]). }
    apply Hk. unfold pullsNext. cbn [State.update State.heap State.set_pullFromWhichNodeTable].
    rewrite bool_decide_eq_true_2 by reflexivity. reflexivity.
  - intros [] s' Hs'. exact Hs'.
Qed.

Lemma reply_moves_nextOffset_witness :
  pullsNext 0%nat 8
    (final (run (quiet (Scenario.answers 5 Scenario.found None))
                (handlePullResult Scenario.mq 0%nat Scenario.sd Scenario.found
                   (Scenario.state false 0 1000)) [])).
Proof.
  apply (@reply_moves_nextOffset (quiet (Scenario.answers 5 Scenario.found None))
           Scenario.mq 0%nat Scenario.sd Scenario.found (Scenario.state false 0 1000) []).
  intros q h s' H. exact H.
Defined.

(** X10.  A round for a queue whose key is not in the table does nothing at
    all.  A round for a queue without a subscription for its topic makes
    one call, the sleep of [pullTimeDelayMillsWhenException], and no
    pull. *)
Theorem round_without_row_or_subscription (env : Env) (mq : MessageQueue) (s : State)
    (tr : list Request) :
  (map_get (key mq) (State.processQueueTable s) = None ->
   run env (executePullRequestImmediately mq s) tr = mkOutcome (inr tt) s tr) /\
  (forall l,
     map_get (key mq) (State.processQueueTable s) = Some l ->
     ProcessQueue.droped (PullRequest.processQueue (State.heap s l)) = false ->
     map_get (MessageQueue.topic mq) (State.subscriptions s) = None ->
     trace (run env (executePullRequestImmediately mq s) tr) =
     tr ++ [Sleep (Options.pullTimeDelayMillsWhenException (State.options s))]).
Proof.
  unfold executePullRequestImmediately. split.
  - intros Hl. msimpl. rewrite Hl. reflexivity.
  - intros l Hl Hd Hsd. msimpl. rewrite Hl. msimpl. rewrite Hd. msimpl. rewrite Hsd. msimpl.
    destruct (answer env _ tr); reflexivity.
Qed.

Lemma round_without_row_or_subscription_witness :
  run (quiet (Scenario.answers 5 Scenario.found None))
      (executePullRequestImmediately (MessageQueue.mk "TopicTest" "broker-a" 1)
         (Scenario.state false 0 1000)) [] =
  mkOutcome (inr tt) (Scenario.state false 0 1000) [].
Proof.
  apply (proj1 (@round_without_row_or_subscription
                  (quiet (Scenario.answers 5 Scenario.found None))
                  (MessageQueue.mk "TopicTest" "broker-a" 1) (Scenario.state false 0 1000) [])).
  reflexivity.
Defined.

Lemma pullKernelImpl_no_read mq e v o c s :
  always (fun q => isReadOffset q = false) (pullKernelImpl mq e v o c s).
Proof.
  unfold pullKernelImpl, findBrokerAddress, recalculatePullFromWhichNode.
  mcases; reflexivity.
Qed.

Lemma handlePullResult_no_read mq l sd pr s :
  always (fun q => isReadOffset q = false) (handlePullResult mq l sd pr s).
Proof.
  unfold handlePullResult, updatePullFromWhichNode, correctTagsOffset, deliver,
    dropProcessQueue, removeProcessQueue, removeUnnecessaryMessageQueue.
  mstep. destruct (PullResult.pullStatus pr); mstep.
  - destruct (filterByTags sd (PullResult.msgFoundList pr)); mcases; reflexivity.
  - mcases; reflexivity.
  - mcases; reflexivity.
  - mcases; reflexivity.
Qed.

(** X11.  In broadcast mode a round of a worker never reads the offset
    store. *)
Theorem broadcast_round_reads_no_offset (env : Env) (mq : MessageQueue) (s : State) :
  Options.isBroadcast (State.options s) = true ->
  Forall (fun q => isReadOffset q = false)
         (trace (run env (executePullRequestImmediately mq s) [])).
Proof.
  intros Hb. apply always_run; [|constructor].
  unfold executePullRequestImmediately. msimpl.
  destruct (map_get (key mq) (State.processQueueTable s)) as [l|]; msimpl; [|exact I].
  destruct (ProcessQueue.droped _); msimpl; [exact I|].
  destruct (map_get (MessageQueue.topic mq) (State.subscriptions s)) as [sd|]; msimpl.
  2:{ split; [reflexivity|]. intros [e|[]] s'; exact I. }
  unfold messageModel. msimpl. rewrite Hb.
  change (bool_decide (CLUSTERING = BROADCASTING)) with false. msimpl.
  apply always_bindR; [apply pullKernelImpl_no_read|].
  intros pr s'. apply handlePullResult_no_read.
Qed.

Lemma broadcast_round_reads_no_offset_witness :
  let s := State.mk true
             (Options.mk true 15000 3000 30000 "group" CONSUME_FROM_LAST_OFFSET
                         "20131223171201" 0 32 true)
             [("TopicTest", Scenario.sd)] [(key Scenario.mq, 0%nat)] []
             (fun _ => Scenario.row false 0) 1%nat 1000 in
  Forall (fun q => isReadOffset q = false)
         (trace (run (quiet (Scenario.answers 5 Scenario.found (Some 10)))
                     (executePullRequestImmediately Scenario.mq s) [])).
Proof.
  cbv zeta.
  apply (@broadcast_round_reads_no_offset (quiet (Scenario.answers 5 Scenario.found (Some 10)))
           Scenario.mq). reflexivity.
Defined.

(** X12.  The replies that deliver nothing.  For NO_NEW_MSG and
    NO_MATCHED_MSG the round makes one call: [updateOffset] with the
    [nextBeginOffset] of the reply, to be taken only if it is greater.
    For FOUND with every message filtered out the round makes no call at
    all: the offset store is not told of the messages that were skipped. *)
Theorem reply_without_delivery (env : Env) (mq : MessageQueue) (l : loc)
    (sd : SubscriptionData) (pr : PullResult) (s : State) (tr : list Request) :
  (PullResult.pullStatus pr = NO_NEW_MSG \/ PullResult.pullStatus pr = NO_MATCHED_MSG ->
   trace (run env (handlePullResult mq l sd pr s) tr) =
   tr ++ [UpdateOffset (PullRequest.messageQueue (State.heap s l))
            (PullResult.nextBeginOffset pr) true]) /\
  (PullResult.pullStatus pr = FOUND ->
   filterByTags sd (PullResult.msgFoundList pr) = [] ->
   trace (run env (handlePullResult mq l sd pr s) tr) = tr /\
   result (run env (handlePullResult mq l sd pr s) tr) = inr tt).
Proof.
  unfold handlePullResult, updatePullFromWhichNode, correctTagsOffset. split.
  - intros [Hst|Hst]; msimpl; rewrite Hst; msimpl;
      rewrite bool_decide_eq_true_2 by reflexivity;
      cbn [PullRequest.set_nextOffset PullRequest.messageQueue PullRequest.nextOffset];
      destruct (answer env _ tr); msimpl; reflexivity.
  - intros Hst Hf. msimpl. rewrite Hst, Hf. msimpl. split; reflexivity.
Qed.

Lemma reply_without_delivery_witness :
  let pr := PullResult.mk FOUND 8 0 [Scenario.msg "TagC" 5] in
  trace (run (quiet (Scenario.answers 5 pr None))
             (handlePullResult Scenario.mq 0%nat Scenario.sd pr (Scenario.state false 0 1000))
             []) = [] /\
  result (run (quiet (Scenario.answers 5 pr None))
              (handlePullResult Scenario.mq 0%nat Scenario.sd pr (Scenario.state false 0 1000))
              []) = inr tt.
Proof.
  cbv zeta.
  apply (proj2 (@reply_without_delivery
                  (quiet (Scenario.answers 5 (PullResult.mk FOUND 8 0 [Scenario.msg "TagC" 5])
                            None))
                  Scenario.mq 0%nat Scenario.sd
                  (PullResult.mk FOUND 8 0 [Scenario.msg "TagC" 5])
                  (Scenario.state false 0 1000) [])); reflexivity.
Defined.

(** X13.  The body of the loop of a worker never throws.  When the round
    ends well it sleeps [pullInterval]; when the round throws and the
    consumer is inited it sleeps [pullTimeDelayMillsWhenException]; when
    the round throws and the consumer is not inited it does not sleep. *)
Theorem pullRound_catches (env : Env) (mq : MessageQueue) (s : State) (tr : list Request) :
  (forall i h, answer env (Sleep i) h = inr tt) ->
  let round := run env (executePullRequestImmediately mq s) tr in
  let body := run env (pullRound mq s) tr in
  result body = inr tt /\
  (result round = inr tt ->
   trace body = trace round ++ [Sleep (Options.pullInterval (State.options (final round)))]) /\
  (forall e, result round = inl e ->
   trace body =
   trace round ++
     (if State.inited (final round)
      then [Sleep (Options.pullTimeDelayMillsWhenException (State.options (final round)))]
      else [])).
Proof.
  intros Hsleep. cbv zeta. split; [apply pullRound_returns, Hsleep|].
  unfold pullRound, try_catch. rewrite run_catchR. cbv zeta.
  rewrite run_bind. cbv zeta.
  destruct (result (run env (executePullRequestImmediately mq s) tr)) as [e|[]] eqn:E.
  - cbn [result final trace]. split; [discriminate|]. intros e' _. msimpl.
    destruct (State.inited _); msimpl; [rewrite Hsleep|]; msimpl.
    + reflexivity.
    + rewrite app_nil_r. reflexivity.
  - split; [|discriminate]. intros _. msimpl. rewrite Hsleep. msimpl. reflexivity.
Qed.

Lemma pullRound_catches_witness :
  trace (run (quiet (Scenario.answers 5 Scenario.found None))
             (pullRound Scenario.mq (Scenario.state false 0 1000)) []) =
  trace (run (quiet (Scenario.answers 5 Scenario.found None))
             (executePullRequestImmediately Scenario.mq (Scenario.state false 0 1000)) []) ++
  [Sleep 3000].
Proof.
  apply (proj2 (proj2 (@pullRound_catches (quiet (Scenario.answers 5 Scenario.found None))
                         Scenario.mq (Scenario.state false 0 1000) []
                         (fun _ _ => eq_refl)))
           (Error "Message process timeout for topic: TopicTest, from 5 to 7.")).
  vm_compute. reflexivity.
Defined.

Lemma map_get_delete {K V} `{EqDecision K} (k : K) (m : list (K * V)) :
  map_get k (map_delete k m) = None.
Proof.
  induction m as [|[k' v'] m IH]; simpl; [reflexivity|].
  case_bool_decide as E; [exact IH|]. simpl.
  rewrite bool_decide_eq_false_2 by exact E. exact IH.
Qed.

(** X14.  [removeProcessQueue] leaves the key of the queue out of the
    table.  When the key was not there it makes no call.  When it was, it
    persists the offset of the queue and then removes it from the offset
    store; the flag [droped] is written on the row of the table, and the
    flag of the process queue of the row is left as it was. *)
Theorem removeProcessQueue_spec
    (ans : forall r : Request, list Request -> JsError + Reply r)
    (mq : MessageQueue) (s : State) (tr : list Request) :
  (forall q h, ans (Persist q) h = inr tt) ->
  (forall q h, ans (RemoveOffset q) h = inr tt) ->
  let out := run (quiet ans) (removeProcessQueue mq s) tr in
  result out = inr tt /\
  map_get (key mq) (State.processQueueTable (final out)) = None /\
  match map_get (key mq) (State.processQueueTable s) with
  | None => trace out = tr
  | Some l =>
      trace out = tr ++ [Persist mq; RemoveOffset mq] /\
      PullRequest.droped (State.heap (final out) l) = true /\
      PullRequest.processQueue (State.heap (final out) l) =
        PullRequest.processQueue (State.heap s l)
  end.
Proof.
  intros Hp Hr. cbv zeta. unfold removeProcessQueue, removeUnnecessaryMessageQueue. msimpl.
  destruct (map_get (key mq) (State.processQueueTable s)) as [l|]; msimpl.
  - cbn [answer meanwhile quiet]. rewrite Hp. msimpl.
    cbn [answer meanwhile quiet]. rewrite Hr. msimpl.
    rewrite bool_decide_eq_true_2 by reflexivity.
    split; [reflexivity|]. split; [apply map_get_delete|].
    split; [rewrite <- app_assoc; reflexivity|]. split; reflexivity.
  - split; [reflexivity|]. split; [apply map_get_delete | reflexivity].
Qed.

Lemma removeProcessQueue_spec_witness :
  let out := run (quiet (Scenario.answers 5 Scenario.found None))
                 (removeProcessQueue Scenario.mq (Scenario.state false 0 1000)) [] in
  result out = inr tt /\
  map_get (key Scenario.mq) (State.processQueueTable (final out)) = None /\
  trace out = [] ++ [Persist Scenario.mq; RemoveOffset Scenario.mq] /\
  PullRequest.droped (State.heap (final out) 0%nat) = true /\
  PullRequest.processQueue (State.heap (final out) 0%nat) =
    PullRequest.processQueue (State.heap (Scenario.state false 0 1000) 0%nat).
Proof.
  exact (@removeProcessQueue_spec (Scenario.answers 5 Scenario.found None)
           Scenario.mq (Scenario.state false 0 1000) []
           (fun _ _ => eq_refl) (fun _ _ => eq_refl)).
Defined.

(** X15.  When persisting the offset of the first unnecessary queue
    throws, the rebalance of the topic throws the same error and stops:
    the process queue of that queue is dropped, yet its key stays in the
    table, the offset is not removed from the store, and no queue is
    added. *)
Theorem rebalance_stops_when_persist_throws
    (ans : forall r : Request, list Request -> JsError + Reply r)
    (topic : string) (mqSet : list MessageQueue) (s : State) (tr : list Request)
    (k : MQKey) (l : loc) (rest : list (MQKey * loc)) (e : JsError) :
  State.processQueueTable s = (k, l) :: rest ->
  unnecessary topic mqSet (State.now s) (State.heap s l) = true ->
  ans (Persist (PullRequest.messageQueue (State.heap s l))) tr = inl e ->
  let out := run (quiet ans) (updateProcessQueueTableInRebalance topic mqSet s) tr in
  result out = inl e /\
  trace out = tr ++ [Persist (PullRequest.messageQueue (State.heap s l))] /\
  State.processQueueTable (final out) = State.processQueueTable s /\
  ProcessQueue.droped (PullRequest.processQueue (State.heap (final out) l)) = true.
Proof.
  intros Htab Hun Hp. cbv zeta.
  assert (Hrun : run (quiet ans) (updateProcessQueueTableInRebalance topic mqSet s) tr =
                 mkOutcome (inl e) (State.update l dropRow s)
                   (tr ++ [Persist (PullRequest.messageQueue (State.heap s l))])).
  { unfold updateProcessQueueTableInRebalance, removeUnnecessaryQueues. msimpl.
    rewrite Htab. cbn [map_keys map fst for_of]. msimpl.
    unfold removeIfUnnecessary at 1. msimpl. rewrite Htab. cbn [map_get].
    rewrite bool_decide_eq_true_2 by reflexivity. msimpl.
    unfold unnecessary in Hun.
    change (bool_decide (consumeType = CONSUME_PASSIVELY)) with true.
    rewrite andb_true_r.
    unfold dropProcessQueue, removeUnnecessaryMessageQueue.
    destruct (bool_decide (topic = _)); rewrite Hun; msimpl;
      cbn [answer meanwhile quiet]; rewrite Hp; msimpl; reflexivity. }
  rewrite Hrun. cbn [result trace final State.update State.processQueueTable State.heap].
  rewrite bool_decide_eq_true_2 by reflexivity.
  split; [reflexivity|]. split; [reflexivity|]. split; reflexivity.
Qed.

Lemma rebalance_stops_when_persist_throws_witness :
  let ans (r : Request) (h : list Request) : JsError + Reply r :=
    match r with
    | Persist _ => inl (Error "persist failed")
    | q => Scenario.answers 5 Scenario.found None q h
    end in
  let out := run (quiet ans)
                 (updateProcessQueueTableInRebalance "TopicTest" [] (Scenario.state false 0 1000))
                 [] in
  result out = inl (Error "persist failed") /\
  trace out = [] ++ [Persist Scenario.mq] /\
  State.processQueueTable (final out) =
    State.processQueueTable (Scenario.state false 0 1000) /\
  ProcessQueue.droped (PullRequest.processQueue (State.heap (final out) 0%nat)) = true.
Proof.
  cbv zeta.
  apply (@rebalance_stops_when_persist_throws _ "TopicTest" [] (Scenario.state false 0 1000) []
           (key Scenario.mq) 0%nat [] (Error "persist failed")); reflexivity.
Defined.

(** ** The pass of a rebalance that adds queues *)

Lemma started_app (a b : list Request) : started (a ++ b) = started a ++ started b.
Proof. unfold started. apply flat_map_app. Qed.

Section AddPass.
Variable ans : forall r : Request, list Request -> JsError + Reply r.
Hypothesis start_returns : forall mq h, ans (PullMessageQueue mq) h = inr tt.

(** [computePullFromWhere] on its own: it changes nothing, starts no
    worker and returns; -1 when the read of the store throws, and the
    stored offset when there is one. *)
Lemma computePullFromWhere_quiet mq c tr :
  exists z more,
    run (quiet ans) (computePullFromWhere mq c) tr = mkOutcome (inr z) c (tr ++ more) /\
    started more = [] /\
    ((exists e, ans (ReadOffset mq READ_FROM_STORE) tr = inl e) -> z = -1) /\
    (forall z0, ans (ReadOffset mq READ_FROM_STORE) tr = inr z0 -> 0 <= z0 -> z = z0).
Proof.
  unfold computePullFromWhere. msimpl. cbn [answer meanwhile quiet].
  destruct (ans (ReadOffset mq READ_FROM_STORE) tr) as [e|lastOffset]; msimpl.
  { exists (-1), [ReadOffset mq READ_FROM_STORE].
    split; [reflexivity|]. split; [reflexivity|]. split; [reflexivity | intros ? [=]]. }
  assert (Hfacts : forall z,
    ((0 <=? lastOffset) = true -> z = lastOffset) ->
    ((exists e : JsError, @inr JsError Z lastOffset = inl e) -> z = -1) /\
    (forall z0, @inr JsError Z lastOffset = inr z0 -> 0 <= z0 -> z = z0)).
  { intros z Hz. split; [intros [e [=]]|]. intros z0 [= <-] Hle. apply Hz, Z.leb_le, Hle. }
  destruct (Options.consumeFromWhere (State.options c));
    destruct (0 <=? lastOffset) eqn:Ele; msimpl;
    try (eexists _, [_]; split; [reflexivity|]; split; [reflexivity|];
         apply Hfacts; intros; solve [reflexivity | discriminate]);
    destruct (lastOffset =? -1); msimpl;
    try (eexists _, [_]; split; [reflexivity|]; split; [reflexivity|];
         apply Hfacts; intros; solve [reflexivity | discriminate]);
    destruct (isRetryTopic (MessageQueue.topic mq)); msimpl;
    try (eexists _, [_]; split; [reflexivity|]; split; [reflexivity|];
         apply Hfacts; intros; solve [reflexivity | discriminate]);
    cbn [answer meanwhile quiet];
    repeat match goal with
           | |- context [run _ (catchR (bindR match ?x with inl _ => _ | inr _ => _ end _) _) _] =>
               destruct x; msimpl; cbn [answer meanwhile quiet]
           | |- context [run _ (catchR match ?x with inl _ => _ | inr _ => _ end _) _] =>
               destruct x; msimpl; cbn [answer meanwhile quiet]
           end;
    rewrite <- ?app_assoc;
    (eexists _, _; split; [reflexivity|]; split; [reflexivity|];
     apply Hfacts; intros; discriminate).
Qed.

Lemma addIfMissing_run changed mq c tr :
  exists z more,
    started more = [] /\
    ((exists e, ans (ReadOffset mq READ_FROM_STORE) tr = inl e) -> z = -1) /\
    (forall z0, ans (ReadOffset mq READ_FROM_STORE) tr = inr z0 -> 0 <= z0 -> z = z0) /\
    run (quiet ans) (addIfMissing changed mq c) tr =
    if map_has (key mq) (State.processQueueTable c) then mkOutcome (inr changed) c tr
    else if 0 <=? z then
      mkOutcome (inr true)
        (State.set_processQueueTable (map_set (key mq) (State.next c))
           (State.alloc (newRow mq (State.now c) z) c))
        (tr ++ more ++ [PullMessageQueue mq])
    else mkOutcome (inr changed) c (tr ++ more).
Proof.
  destruct (computePullFromWhere_quiet mq c tr) as (z & more & Hrun & Hs & H1 & H2).
  exists z, more. split; [exact Hs|]. split; [exact H1|]. split; [exact H2|].
  unfold addIfMissing. msimpl.
  destruct (map_has (key mq) (State.processQueueTable c)) eqn:Hhas; [reflexivity|].
  rewrite run_bind. cbv zeta. rewrite Hrun. cbn [result final trace]. msimpl.
  rewrite Hhas. destruct (0 <=? z); msimpl; [|reflexivity].
  cbn [answer meanwhile quiet]. rewrite start_returns. msimpl.
  rewrite <- app_assoc. reflexivity.
Qed.

Lemma add_loop (mqs : list MessageQueue) :
  forall c changed tr,
  exists more,
    trace (run (quiet ans) (for_of mqs addIfMissing changed c) tr) = tr ++ more /\
    addPost ans mqs c changed more (run (quiet ans) (for_of mqs addIfMissing changed c) tr).
Proof.
  induction mqs as [|mq mqs IH]; intros c changed tr.
  - exists []. split; [symmetry; apply app_nil_r|]. unfold addPost. simpl.
    split; [exists changed; split; [reflexivity | tauto]|].
    split; [lia|]. split; [reflexivity|]. split; [reflexivity|]. split; [tauto|].
    split; [intros k Hk; rewrite Hk; tauto|]. split; [tauto|].
    split; [constructor | tauto].
  - destruct (addIfMissing_run changed mq c tr) as (z & more1 & Hs1 & Hz1 & Hz2 & Hrun).
    cbn [for_of]. rewrite run_bind. cbv zeta. rewrite Hrun.
    destruct (map_has (key mq) (State.processQueueTable c)) eqn:Hhas;
      [|destruct (0 <=? z) eqn:Hz]; cbn [result final trace].
    + (* the key is there *)
      destruct (IH c changed tr) as (more & Htr & Hb & Hn & Hnow & Hheap & Hold & Hnew & Hst & Hnd & Hcov).
      exists more. split; [exact Htr|]. unfold addPost.
      split; [exact Hb|]. split; [exact Hn|]. split; [exact Hnow|]. split; [exact Hheap|].
      split; [exact Hold|]. split; [exact Hnew|].
      split; [intros q Hq; destruct (Hst q Hq); split; [assumption | right; assumption]|].
      split; [exact Hnd|].
      intros Hall q [<-|Hq]; [|apply Hcov; assumption].
      unfold map_has in *. destruct (map_get (key mq) (State.processQueueTable c)) as [l|] eqn:E;
        [|discriminate]. rewrite (Hold _ _ E). reflexivity.
    + (* the queue is added *)
      set (c1 := State.set_processQueueTable (map_set (key mq) (State.next c))
                   (State.alloc (newRow mq (State.now c) z) c)).
      assert (Hnone : map_get (key mq) (State.processQueueTable c) = None).
      { unfold map_has in Hhas. destruct (map_get _ _); [discriminate | reflexivity]. }
      assert (Htab1 : forall k, map_get k (State.processQueueTable c1) =
                        if bool_decide (k = key mq) then Some (State.next c)
                        else map_get k (State.processQueueTable c)).
      { intros k. unfold c1. cbn [State.set_processQueueTable State.alloc State.processQueueTable].
        case_bool_decide as E; [subst; apply map_get_set | apply map_get_set_other, E]. }
      destruct (IH c1 true (tr ++ more1 ++ [PullMessageQueue mq]))
        as (more & Htr & Hb & Hn & Hnow & Hheap & Hold & Hnew & Hst & Hnd & Hcov).
      assert (Hstart : started ((more1 ++ [PullMessageQueue mq]) ++ more) = mq :: started more).
      { rewrite !started_app, Hs1. reflexivity. }
      exists ((more1 ++ [PullMessageQueue mq]) ++ more).
      split; [rewrite Htr, <- !app_assoc; reflexivity|].
      unfold addPost. rewrite Hstart.
      change (State.next c1) with (S (State.next c)) in *.
      change (State.now c1) with (State.now c) in *.
      assert (Hrow : State.heap (final (run (quiet ans) (for_of mqs addIfMissing true c1)
                                          (tr ++ more1 ++ [PullMessageQueue mq])))
                       (State.next c) = newRow mq (State.now c) z).
      { rewrite Hheap by lia. unfold c1.
        cbn [State.set_processQueueTable State.alloc State.heap].
        rewrite bool_decide_eq_true_2 by reflexivity. reflexivity. }
      split; [|split; [|split; [|split; [|split; [|split; [|split; [|split]]]]]]].
      * destruct Hb as (b & Hb & Hiff). exists b. split; [exact Hb|].
        split; [intros _; right; discriminate | intros _; apply Hiff; left; reflexivity].
      * lia.
      * exact Hnow.
      * intros l Hl. rewrite Hheap by lia. unfold c1.
        cbn [State.set_processQueueTable State.alloc State.heap].
        rewrite bool_decide_eq_false_2 by lia. reflexivity.
      * intros k l Hk. apply Hold. rewrite Htab1.
        rewrite bool_decide_eq_false_2 by congruence. exact Hk.
      * intros k Hk. destruct (decide (k = key mq)) as [->|Hne].
        -- rewrite (Hold (key mq) (State.next c)).
           2:{ rewrite Htab1, bool_decide_eq_true_2 by reflexivity. reflexivity. }
           split; [lia|]. exists mq, z. split; [reflexivity|]. split; [left; reflexivity|].
           split; [apply Z.leb_le, Hz|]. split; [exact Hrow|].
           intros Hthrow. destruct (Hthrow tr) as [e He].
           rewrite (Hz1 (ex_intro _ e He)) in Hz. discriminate.
        -- specialize (Hnew k). rewrite Htab1, bool_decide_eq_false_2 in Hnew by exact Hne.
           specialize (Hnew Hk).
           destruct (map_get k (State.processQueueTable (final _))) as [l|].
           ++ destruct Hnew as (Hl & q & z' & Hq1 & Hq2 & Hq3 & Hq4 & Hq5).
              split; [lia|]. exists q, z'. split; [exact Hq1|]. split; [right; exact Hq2|].
              split; [exact Hq3|]. split; [exact Hq4 | exact Hq5].
           ++ intros [E|Hin]; [congruence | contradiction].
      * intros q [<-|Hq]; [split; [exact Hnone | left; reflexivity]|].
        destruct (Hst q Hq) as [Hq1 Hq2]. split; [|right; exact Hq2].
        rewrite Htab1 in Hq1. case_bool_decide; [discriminate | exact Hq1].
      * cbn [map]. constructor; [|exact Hnd].
        intros Hin. apply in_map_iff in Hin as (q & Hkey & Hq).
        destruct (Hst q Hq) as [Hq1 _]. rewrite Hkey, Htab1 in Hq1.
        rewrite bool_decide_eq_true_2 in Hq1 by reflexivity. discriminate.
      * intros Hall q [<-|Hq]; [|apply Hcov; assumption].
        unfold map_has. rewrite (Hold (key mq) (State.next c)); [reflexivity|].
        rewrite Htab1, bool_decide_eq_true_2 by reflexivity. reflexivity.
    + (* the queue is skipped *)
      destruct (IH c changed (tr ++ more1))
        as (more & Htr & Hb & Hn & Hnow & Hheap & Hold & Hnew & Hst & Hnd & Hcov).
      assert (Hstart : started (more1 ++ more) = started more).
      { rewrite started_app, Hs1. reflexivity. }
      exists (more1 ++ more). split; [rewrite Htr, <- app_assoc; reflexivity|].
      unfold addPost. rewrite Hstart.
      split; [exact Hb|]. split; [exact Hn|]. split; [exact Hnow|]. split; [exact Hheap|].
      split; [exact Hold|]. split; [exact Hnew|].
      split; [intros q Hq; destruct (Hst q Hq); split; [assumption | right; assumption]|].
      split; [exact Hnd|].
      intros Hall q [<-|Hq]; [|apply Hcov; assumption].
      destruct (Hall mq tr) as (z0 & Hz0 & Hle).
      rewrite (Hz2 z0 Hz0 Hle) in Hz. apply Z.leb_gt in Hz. lia.
Qed.
End AddPass.

Lemma key_inj (a b : MessageQueue) : key a = key b -> a = b.
Proof. destruct a, b. unfold key. simpl. intros [= -> -> ->]. reflexivity. Qed.

(** X16.  The pass that adds the assigned queues ends without an exception
    and only adds: every key of the table stays bound to its row, and no
    row in use is written. *)
Theorem add_pass_keeps_table
    (ans : forall r : Request, list Request -> JsError + Reply r)
    (mqSet : list MessageQueue) (s : State) (changed : bool) (tr : list Request) :
  (forall mq h, ans (PullMessageQueue mq) h = inr tt) ->
  let out := run (quiet ans) (for_of mqSet addIfMissing changed s) tr in
  (exists b, result out = inr b) /\
  (forall k l, map_get k (State.processQueueTable s) = Some l ->
               map_get k (State.processQueueTable (final out)) = Some l) /\
  (forall l, (l < State.next s)%nat -> State.heap (final out) l = State.heap s l).
Proof.
  intros Hstart. cbv zeta.
  destruct (@add_loop ans Hstart mqSet s changed tr)
    as (more & _ & (b & Hb & _) & _ & _ & Hheap & Hold & _).
  split; [eauto|]. split; assumption.
Qed.

Lemma add_pass_keeps_table_witness :
  let out := run (quiet (Scenario.answers 5 Scenario.found None))
                 (for_of [Scenario.mq; MessageQueue.mk "TopicTest" "broker-a" 1]
                         addIfMissing false (Scenario.state false 0 1000)) [] in
  (exists b, result out = inr b) /\
  (forall k l, map_get k (State.processQueueTable (Scenario.state false 0 1000)) = Some l ->
               map_get k (State.processQueueTable (final out)) = Some l) /\
  (forall l, (l < 1)%nat -> State.heap (final out) l = State.heap (Scenario.state false 0 1000) l).
Proof.
  exact (@add_pass_keeps_table (Scenario.answers 5 Scenario.found None)
           [Scenario.mq; MessageQueue.mk "TopicTest" "broker-a" 1]
           (Scenario.state false 0 1000) false [] (fun _ _ => eq_refl)).
Defined.

(** X17.  The pass starts a worker exactly for the keys it adds, once per
    key: a queue whose worker is started is an assigned queue that was not
    in the table and is now bound to a new row, not dropped, with a start
    offset that is not negative; and every key that is new in the table is
    the key of a queue whose worker is started. *)
Theorem add_pass_starts_workers
    (ans : forall r : Request, list Request -> JsError + Reply r)
    (mqSet : list MessageQueue) (s : State) (changed : bool) :
  (forall mq h, ans (PullMessageQueue mq) h = inr tt) ->
  let out := run (quiet ans) (for_of mqSet addIfMissing changed s) [] in
  List.NoDup (map key (started (trace out))) /\
  (forall mq, In mq (started (trace out)) ->
     In mq mqSet /\
     map_get (key mq) (State.processQueueTable s) = None /\
     exists l z,
       map_get (key mq) (State.processQueueTable (final out)) = Some l /\
       0 <= z /\ State.heap (final out) l = newRow mq (State.now s) z) /\
  (forall k, map_get k (State.processQueueTable s) = None ->
     map_has k (State.processQueueTable (final out)) = true ->
     In k (map key (started (trace out)))).
Proof.
  intros Hstart. cbv zeta.
  destruct (@add_loop ans Hstart mqSet s changed [])
    as (more & Htr & _ & _ & _ & _ & _ & Hnew & Hst & Hnd & _).
  rewrite Htr. cbn [app]. split; [exact Hnd|]. split.
  - intros mq Hmq. destruct (Hst mq Hmq) as [Hnone Hin]. split; [exact Hin|].
    split; [exact Hnone|]. specialize (Hnew (key mq) Hnone).
    destruct (map_get (key mq) (State.processQueueTable (final _))) as [l|].
    + destruct Hnew as (_ & q & z & Hk & _ & Hz & Hrow & _).
      apply key_inj in Hk. subst q. eauto.
    + exfalso. apply Hnew. apply in_map. exact Hmq.
  - intros k Hnone Hhas. specialize (Hnew k Hnone). unfold map_has in Hhas.
    destruct (map_get k (State.processQueueTable (final _))) as [l|]; [|discriminate].
    destruct Hnew as (_ & q & z & -> & Hq & _). apply in_map. exact Hq.
Qed.

Lemma add_pass_starts_workers_witness :
  let out := run (quiet (Scenario.answers 5 Scenario.found None))
                 (for_of [Scenario.mq; MessageQueue.mk "TopicTest" "broker-a" 1]
                         addIfMissing false (Scenario.state false 0 1000)) [] in
  In (MessageQueue.mk "TopicTest" "broker-a" 1) [Scenario.mq; MessageQueue.mk "TopicTest" "broker-a" 1] /\
  map_get (key (MessageQueue.mk "TopicTest" "broker-a" 1))
          (State.processQueueTable (Scenario.state false 0 1000)) = None /\
  exists l z,
    map_get (key (MessageQueue.mk "TopicTest" "broker-a" 1))
            (State.processQueueTable (final out)) = Some l /\
    0 <= z /\
    State.heap (final out) l = newRow (MessageQueue.mk "TopicTest" "broker-a" 1) 1000 z.
Proof.
  apply (proj1 (proj2 (@add_pass_starts_workers (Scenario.answers 5 Scenario.found None)
                         [Scenario.mq; MessageQueue.mk "TopicTest" "broker-a" 1]
                         (Scenario.state false 0 1000) false (fun _ _ => eq_refl)))).
  vm_compute. left. reflexivity.
Defined.

(** X18.  When the offset store holds an offset for every queue, every
    assigned queue is in the table after the pass.  A queue that is not in
    the table and whose stored offset cannot be read is not added, and no
    worker is started for it. *)
Theorem add_pass_covers
    (ans : forall r : Request, list Request -> JsError + Reply r)
    (mqSet : list MessageQueue) (s : State) (changed : bool) :
  (forall mq h, ans (PullMessageQueue mq) h = inr tt) ->
  let out := run (quiet ans) (for_of mqSet addIfMissing changed s) [] in
  ((forall mq h, exists z, ans (ReadOffset mq READ_FROM_STORE) h = inr z /\ 0 <= z) ->
   forall mq, In mq mqSet -> map_has (key mq) (State.processQueueTable (final out)) = true) /\
  (forall mq,
     (forall h, exists e, ans (ReadOffset mq READ_FROM_STORE) h = inl e) ->
     map_get (key mq) (State.processQueueTable s) = None ->
     map_get (key mq) (State.processQueueTable (final out)) = None /\
     ~ In mq (started (trace out))).
Proof.
  intros Hstart. cbv zeta.
  destruct (@add_loop ans Hstart mqSet s changed [])
    as (more & Htr & _ & _ & _ & _ & _ & Hnew & _ & _ & Hcov).
  rewrite Htr. cbn [app]. split; [exact Hcov|].
  intros mq Hthrow Hnone. specialize (Hnew (key mq) Hnone).
  destruct (map_get (key mq) (State.processQueueTable (final _))) as [l|].
  - destruct Hnew as (_ & q & z & Hk & _ & _ & _ & Hq).
    apply key_inj in Hk. subst q. contradiction.
  - split; [reflexivity|]. intros Hin. apply Hnew. apply in_map. exact Hin.
Qed.

Lemma add_pass_covers_witness :
  map_has (key (MessageQueue.mk "TopicTest" "broker-a" 1))
    (State.processQueueTable
       (final (run (quiet (Scenario.answers 5 Scenario.found None))
                   (for_of [Scenario.mq; MessageQueue.mk "TopicTest" "broker-a" 1]
                           addIfMissing false (Scenario.state false 0 1000)) []))) = true.
Proof.
  apply (proj1 (@add_pass_covers (Scenario.answers 5 Scenario.found None)
                  [Scenario.mq; MessageQueue.mk "TopicTest" "broker-a" 1]
                  (Scenario.state false 0 1000) false (fun _ _ => eq_refl))).
  - intros mq h. exists 5. split; [reflexivity | lia].
  - right. left. reflexivity.
Defined.

(** ** A rebalance of a topic, as a whole *)

Lemma always_for_of {A X} (P : Request -> Prop) (l : list X) (body : A -> X -> M A) :
  (forall a x s, always P (body a x s)) -> forall acc s, always P (for_of l body acc s).
Proof.
  intros Hb. induction l as [|x l IH]; intros acc s; simpl; [exact I|].
  apply always_bindR; [apply Hb | intros a s'; apply IH].
Qed.

Lemma started_nil (tr : list Request) :
  Forall (fun q => started [q] = []) tr -> started tr = [].
Proof.
  induction 1 as [|q tr Hq _ IH]; [reflexivity|].
  change (q :: tr) with ([q] ++ tr). rewrite started_app, Hq, IH. reflexivity.
Qed.

Lemma removeUnnecessaryQueues_starts_none topic mqSet changed s :
  always (fun q => started [q] = []) (removeUnnecessaryQueues topic mqSet changed s).
Proof.
  unfold removeUnnecessaryQueues. msimpl. apply always_for_of.
  intros a k c. unfold removeIfUnnecessary, dropProcessQueue, removeUnnecessaryMessageQueue.
  mcases; reflexivity.
Qed.

Lemma removeUnnecessaryQueues_keeps_next n topic mqSet changed :
  keeps (fun c => State.next c = n) (removeUnnecessaryQueues topic mqSet changed).
Proof.
  unfold removeUnnecessaryQueues, removeIfUnnecessary, dropProcessQueue,
    removeUnnecessaryMessageQueue, readRow.
  repeat keeps_with ltac:(assumption).
Qed.

Lemma map_get_In {K V} `{EqDecision K} (k : K) (v : V) (m : list (K * V)) :
  map_get k m = Some v -> In (k, v) m.
Proof.
  induction m as [|[k' v'] m IH]; simpl; [discriminate|].
  case_bool_decide as E; [intros [= ->]; subst; left; reflexivity | intros H; right; auto].
Qed.

(** X19.  A rebalance of a topic reconciles the table with the assigned
    queues: when the calls it makes return, it ends without an exception
    and leaves every key of the table bound to the row of its queue, with
    no queue of the rebalanced topic that is not assigned; and it reports
    a change exactly when it has removed an entry or started a worker. *)
Theorem rebalance_reconciles
    (ans : forall r : Request, list Request -> JsError + Reply r)
    (topic : string) (mqSet : list MessageQueue) (s : State) :
  (forall mq h, ans (Persist mq) h = inr tt) ->
  (forall mq h, ans (RemoveOffset mq) h = inr tt) ->
  (forall mq h, ans (PullMessageQueue mq) h = inr tt) ->
  tableOk s ->
  let out := run (quiet ans) (updateProcessQueueTableInRebalance topic mqSet s) [] in
  (exists b, result out = inr b /\
     (b = true <->
      existsb (gone topic mqSet s) (State.processQueueTable s) = true \/
      started (trace out) <> [])) /\
  (forall k l, map_get k (State.processQueueTable (final out)) = Some l ->
     key (PullRequest.messageQueue (State.heap (final out) l)) = k /\
     (MessageQueue.topic (PullRequest.messageQueue (State.heap (final out) l)) = topic ->
      someKey mqSet (PullRequest.messageQueue (State.heap (final out) l)) = true)).
Proof.
  intros Hpersist Hremove Hstart [Hnd Hok]. cbv zeta.
  unfold updateProcessQueueTableInRebalance. rewrite run_bind. cbv zeta.
  assert (Hnext : State.next (final (run (quiet ans)
                    (removeUnnecessaryQueues topic mqSet false s) [])) = State.next s).
  { apply (preserves_run (quiet ans) (fun c => State.next c = State.next s)).
    - intros q tr c Hc. exact Hc.
    - apply removeUnnecessaryQueues_keeps_next. reflexivity. }
  assert (Hnone : started (trace (run (quiet ans)
                    (removeUnnecessaryQueues topic mqSet false s) [])) = []).
  { apply started_nil, always_run; [apply removeUnnecessaryQueues_starts_none | constructor]. }
  assert (Hun : removeUnnecessaryQueues topic mqSet false s =
                for_of (map fst (State.processQueueTable s))
                  (removeIfUnnecessary topic mqSet) false s) by reflexivity.
  rewrite Hun in *. clear Hun. revert Hnext Hnone.
  destruct (@removal_loop ans Hpersist Hremove topic mqSet
              (State.processQueueTable s) [] s false [] eq_refl Hnd)
    as (H1 & H2 & Hsame & _ & _).
  cbv zeta in H1, H2, Hsame. unfold map_keys.
  set (out1 := run (quiet ans)
                 (for_of (map fst (State.processQueueTable s))
                    (removeIfUnnecessary topic mqSet) false s) []) in *.
  intros Hnext Hnone. rewrite H2. cbv beta iota.
  destruct (@add_loop ans Hstart mqSet (final out1)
              (false || existsb (gone topic mqSet s) (State.processQueueTable s)) (trace out1))
    as (more & Htr & (b & Hb & Hiff) & Hn & Hnow & Hheap & Hold & Hnew & Hst & _).
  split.
  - exists b. split; [exact Hb|]. rewrite Htr, started_app, Hnone. cbn [app orb] in *.
    exact Hiff.
  - intros k l Hfin.
    destruct (map_get k (State.processQueueTable (final out1))) as [l'|] eqn:E1.
    + rewrite (Hold k l' E1) in Hfin. injection Hfin as <-.
      rewrite H1 in E1. cbn [app] in E1. apply map_get_In, filter_In in E1 as [Hin Hkeep].
      destruct (Hok k l' Hin) as [Hl Hkey].
      rewrite Hheap by lia. destruct Hsame as [_ Hrows].
      rewrite (proj1 (Hrows l')). split; [exact Hkey|].
      intros Htopic. unfold gone, unnecessary in Hkeep. cbn [snd] in Hkeep.
      rewrite bool_decide_eq_true_2 in Hkeep by (symmetry; exact Htopic).
      rewrite negb_involutive in Hkeep. exact Hkeep.
    + specialize (Hnew k E1). rewrite Hfin in Hnew.
      destruct Hnew as (_ & q & z & -> & Hq & _ & Hrow & _).
      rewrite Hrow. cbn [newRow PullRequest.messageQueue]. split; [reflexivity|].
      intros _. apply existsb_exists. exists q. split; [apply (Hst q Hq)|].
      apply bool_decide_eq_true_2. reflexivity.
Qed.

Lemma rebalance_reconciles_witness :
  let out := run (quiet (Scenario.answers 5 Scenario.found None))
                 (updateProcessQueueTableInRebalance "TopicTest"
                    [MessageQueue.mk "TopicTest" "broker-a" 1] (Scenario.state false 0 1000))
                 [] in
  (exists b, result out = inr b /\
     (b = true <->
      existsb (gone "TopicTest" [MessageQueue.mk "TopicTest" "broker-a" 1]
                 (Scenario.state false 0 1000))
              (State.processQueueTable (Scenario.state false 0 1000)) = true \/
      started (trace out) <> [])) /\
  (forall k l, map_get k (State.processQueueTable (final out)) = Some l ->
     key (PullRequest.messageQueue (State.heap (final out) l)) = k /\
     (MessageQueue.topic (PullRequest.messageQueue (State.heap (final out) l)) = "TopicTest" ->
      someKey [MessageQueue.mk "TopicTest" "broker-a" 1]
              (PullRequest.messageQueue (State.heap (final out) l)) = true)).
Proof.
  apply (@rebalance_reconciles (Scenario.answers 5 Scenario.found None) "TopicTest"
           [MessageQueue.mk "TopicTest" "broker-a" 1] (Scenario.state false 0 1000)
           (fun _ _ => eq_refl) (fun _ _ => eq_refl) (fun _ _ => eq_refl)).
  split.
  - repeat constructor. intros [].
  - intros k l [[= <- <-]|[]]. split; [vm_compute; lia | reflexivity].
Defined.
